(** * Malloy VS Code extension: worker supervisor, connection manager,
      query materializers and the connection save hook

    A shallow embedding of four TypeScript sources of the extension:

    - the worker supervisor, class [WorkerConnection] over [child_process];
    - the connection manager, common/connection_manager.ts;
    - [createModelMaterializer] and [createRunnable] of the worker;
    - [handleConnectionsPreSave] of the edit-connections command;

    followed by the properties established about them.

    Conventions.  JavaScript objects used as dictionaries are finite maps
    ([gmap]) of their own properties.  The dictionaries of the connection
    manager that are read under a connection name ([ConnectionPool] and
    [this.connections]) are plain objects: a read that finds no own
    property finds the member of [Object.prototype] of that name, if there
    is one, and the model reads them that way.  Object identity is
    modelled by an allocation counter: every [new] yields a fresh object
    id.  The external libraries (Malloy runtime, database clients, keytar,
    the URL constructor, [path.dirname], the clock) are not re-implemented:
    calls into them are recorded symbolically or taken as section
    variables. *)

From Stdlib Require Import ZArith.
From stdpp Require Import gmap strings list fin_maps pretty.

Open Scope string_scope.
Open Scope Z_scope.
Open Scope list_scope.

(** ** JavaScript values shared by the modules *)

(** What a [throw] carries. *)
Inductive Thrown :=
| JsError (message : string)       (* [throw new Error(message)] *)
| JsTypeError (message : string)   (* thrown by a built-in, e.g. [new URL] *)
| JsString (value : string).       (* [throw `...`] of a plain string *)

(** The settled state of a promise, or the outcome of a call that may throw. *)
Inductive Outcome (A : Type) :=
| Resolved (value : A)
| Rejected (reason : Thrown).
Arguments Resolved {A} value.
Arguments Rejected {A} reason.

(** Truthiness of an optional string: [undefined] and [""] are falsy. *)
Definition truthy_string (s : option string) : bool :=
  match s with
  | Some s => negb (String.eqb s "")
  | None => false
  end.

(** Truthiness of an optional boolean: [undefined] and [false] are falsy. *)
Definition truthy_bool (b : option bool) : bool :=
  match b with
  | Some true => true
  | _ => false
  end.

(** * Worker process supervisor *)
Module Worker.

(** The [status] argument of a child's [exit] event: the exit code, or
    [null] when the child was terminated by a signal. *)
Inductive ExitStatus :=
| Code (n : Z)
| Null.

(** Template-literal rendering [`${status}`]. *)
Definition status_to_string (status : ExitStatus) : string :=
  match status with
  | Code n => pretty n
  | Null => "null"
  end.

(** [status !== 0] *)
Definition status_nonzero (status : ExitStatus) : bool :=
  match status with
  | Code 0 => false
  | _ => true
  end.

Inductive ConsoleLine :=
| console_error (text : string)
| console_info (text : string).

(** The only callback ever handed to [setTimeout] is [startWorker]. *)
Inductive Callback := StartWorker.

Record Timer := { callback : Callback; delay : Z }.

(** One call of [child_process.fork]. *)
Record Fork := { modulePath : string; execArgv : list string }.

(** The supervisor and the part of the process it acts on.  A child is
    identified by the index of the [fork] call that created it. *)
Record WorkerConnection := {
  workerModule : string;            (* [context.asAbsolutePath("dist/worker.js")] *)
  worker : nat;                     (* [this.worker] *)
  forks : list Fork;                (* children forked so far *)
  timers : list Timer;              (* pending [setTimeout] callbacks, oldest first *)
  console : list ConsoleLine;       (* console output, oldest first *)
  signals : list (nat * string)     (* [kill] calls: child and signal *)
}.

(** [startWorker]: fork a child and make it the current worker. *)
Definition startWorker (s : WorkerConnection) : WorkerConnection :=
  {| workerModule := workerModule s;
     worker := length (forks s);
     forks := forks s ++ [ {| modulePath := workerModule s;
                              execArgv := ["--no-lazy"; "--inspect=6010"] |} ];
     timers := timers s;
     console := console s;
     signals := signals s |}.

(** The listener [startWorker] attaches to the child's [exit] event. *)
Definition exit_handler (status : ExitStatus) (s : WorkerConnection) : WorkerConnection :=
  if status_nonzero status then
    {| workerModule := workerModule s;
       worker := worker s;
       forks := forks s;
       timers := timers s ++ [ {| callback := StartWorker; delay := 5000 |} ];
       console := console s ++
                  [ console_error ("Worker exited with " +:+ status_to_string status);
                    console_info "Restarting in 5 seconds" ];
       signals := signals s |}
  else s.

(** The constructor: remember the module path and start the first worker. *)
Definition new_WorkerConnection (absolutePath : string) : WorkerConnection :=
  startWorker {| workerModule := absolutePath; worker := 0%nat; forks := [];
                 timers := []; console := []; signals := [] |}.

(** [stop()]: [this.worker.kill("SIGHUP")]. *)
Definition stop (s : WorkerConnection) : WorkerConnection :=
  {| workerModule := workerModule s;
     worker := worker s;
     forks := forks s;
     timers := timers s;
     console := console s;
     signals := signals s ++ [ (worker s, "SIGHUP") ] |}.

(** The event loop running the oldest pending timer. *)
Definition run_timer (s : WorkerConnection) : WorkerConnection :=
  match timers s with
  | [] => s
  | {| callback := StartWorker |} :: rest =>
      startWorker {| workerModule := workerModule s; worker := worker s;
                     forks := forks s; timers := rest;
                     console := console s; signals := signals s |}
  end.

(** ** Runs of the supervisor *)

(** What can happen to a supervisor: a child's [exit] event, a call of
    [stop()], the event loop running the oldest pending timer. *)
Inductive Event :=
| Exit (status : ExitStatus)
| Stop
| TimerFires.

Definition step (s : WorkerConnection) (e : Event) : WorkerConnection :=
  match e with
  | Exit status => exit_handler status s
  | Stop => stop s
  | TimerFires => run_timer s
  end.

(** The supervisor after a sequence of events. *)
Definition run (events : list Event) (s : WorkerConnection) : WorkerConnection :=
  fold_left step events s.

Definition is_abnormal_exit (e : Event) : bool :=
  match e with
  | Exit status => status_nonzero status
  | _ => false
  end.

Definition is_stop (e : Event) : bool :=
  match e with
  | Stop => true
  | _ => false
  end.

(** The [fork] call every worker is started with. *)
Definition worker_fork (absolutePath : string) : Fork :=
  {| modulePath := absolutePath; execArgv := ["--no-lazy"; "--inspect=6010"] |}.

(** The shape every reachable supervisor has. *)
Definition well_formed (absolutePath : string) (s : WorkerConnection) : Prop :=
  workerModule s = absolutePath ∧
  S (worker s) = length (forks s) ∧
  Forall (λ f, f = worker_fork absolutePath) (forks s) ∧
  Forall (λ t, t = {| callback := StartWorker; delay := 5000 |}) (timers s) ∧
  Forall (λ sg, sg.2 = "SIGHUP" ∧ (sg.1 < length (forks s))%nat) (signals s).

(** Two supervisors that differ at most in the signals they have sent. *)
Definition same_supervision (s s' : WorkerConnection) : Prop :=
  workerModule s = workerModule s' ∧ worker s = worker s' ∧
  forks s = forks s' ∧ timers s = timers s' ∧ console s = console s'.

End Worker.

(** * Connection configuration (connection_manager_types.ts) *)

(** A property of an object that may be missing altogether
    (['p' in o] is false) or present, holding [undefined] or a value. *)
Inductive Property (A : Type) :=
| Missing
| Holds (value : option A).
Arguments Missing {A}.
Arguments Holds {A} value.

(** Reading a property: a missing one reads as [undefined]. *)
Definition read {A : Type} (p : Property A) : option A :=
  match p with
  | Missing => None
  | Holds v => v
  end.

(** ['p' in o] *)
Definition has_property {A : Type} (p : Property A) : bool :=
  match p with
  | Missing => false
  | Holds _ => true
  end.

(** Modelled from the spec: the enumeration [ConnectionBackend] is declared
    in connection_manager_types.ts, which is not among the sources.  The
    spec names the backend kinds BigQuery, Postgres and DuckDB; a
    configuration read from the settings at run time may carry any other
    tag, which is [OtherBackend]. *)
Inductive ConnectionBackend :=
| BigQuery
| Postgres
| DuckDB
| OtherBackend (tag : string).

(** Modelled from the spec: the type [ConnectionConfig] is declared in
    connection_manager_types.ts, which is not among the sources.  The spec
    lists name, backend kind, credentials, default flag and generated flag;
    the remaining fields are the ones the sources read. *)
Record ConnectionConfig := {
  name : string;
  backend : ConnectionBackend;
  id : string;
  isDefault : option bool;
  isGenerated : option bool;
  (* BigQuery *)
  projectName : option string;
  serviceAccountKeyPath : option string;
  location : option string;
  (* Postgres *)
  username : option string;
  password : Property string;
  host : option string;
  port : option Z;
  databaseName : option string;
  useKeychainPassword : option bool;
  (* DuckDB *)
  workingDirectory : option string
}.

(** A WHATWG URL object, as far as the sources look at it. *)
Record URL := { href : string; pathname : string }.

(** The OS keychain behind keytar: passwords by service and account. *)
Abbreviation Keychain := (gmap (string * string) string).

Definition keychain_service : string := "com.malloy-lang.vscode-extension".

(** [`connections.${id}.password`] *)
Definition keychain_account (connection_id : string) : string :=
  "connections." +:+ connection_id +:+ ".password".

(** * Connection manager (common/connection_manager.ts) *)
Module ConnectionManager.

(** [ConnectionPool], [this.connections] and [this.configs] are plain
    objects created as [{}]: reading a key finds an own property or,
    failing that, the member of [Object.prototype] of that name.  These
    are the names of the members of [Object.prototype]; each of them is a
    function or an object, hence truthy. *)
Definition Object_prototype_names : list string :=
  [ "constructor"; "__defineGetter__"; "__defineSetter__"; "hasOwnProperty";
    "__lookupGetter__"; "__lookupSetter__"; "isPrototypeOf";
    "propertyIsEnumerable"; "toString"; "valueOf"; "__proto__";
    "toLocaleString" ].

Definition inherited_name (key : string) : bool :=
  existsb (String.eqb key) Object_prototype_names.

(** The member of [Object.prototype] a key reaches, if any; the symbol
    [DEFAULT_CONFIG] reaches none. *)
Definition inherited_member (key : option string) : option string :=
  match key with
  | Some n => if inherited_name n then Some n else None
  | None => None
  end.

(** What a promise of the connection manager settles to: a value, a
    rejection, or the member of [Object.prototype] that a read of a plain
    object has found, which is no connection. *)
Inductive Outcome (A : Type) :=
| Resolved (value : A)
| Rejected (reason : Thrown)
| Inherited (member : string).
Arguments Resolved {A} value.
Arguments Rejected {A} reason.
Arguments Inherited {A} member.

(** What a connection object was constructed from.  The closures handed to
    the constructors are represented by what they capture. *)
Inductive ConnectionArgs :=
| BigQueryConnection (connectionName : string) (rowLimit : option Z)
    (defaultProject serviceAccountKeyPath location : option string)
| PostgresConnection (connectionName : string) (rowLimit : option Z)
    (configReader : ConnectionConfig)
| DuckDBConnection (connectionName : string) (databasePath : string)
    (workingDirectory : string).

(** A connection object: its identity and its construction. *)
Record Connection := { object_id : nat; built : ConnectionArgs }.

Record ConfigOptions := {
  opt_workingDirectory : string;
  opt_rowLimit : option Z;
  opt_usePool : Property bool
}.

(** The default value of the options parameter. *)
Definition default_options : ConfigOptions :=
  {| opt_workingDirectory := "/"; opt_rowLimit := None; opt_usePool := Missing |}.

(** The module-level state: the pool and the connection objects
    constructed so far. *)
Record Process := {
  ConnectionPool : gmap string Connection;
  allocated : nat
}.

(** [new C(...)]: a fresh object. *)
Definition construct (args : ConnectionArgs) (p : Process) : Connection * Process :=
  ({| object_id := allocated p; built := args |},
   {| ConnectionPool := ConnectionPool p; allocated := S (allocated p) |}).

(** [if (usePool) ConnectionPool[name] = connection] *)
Definition pool_store (usePool : option bool) (key : string) (c : Connection)
    (p : Process) : Process :=
  if truthy_bool usePool
  then {| ConnectionPool := <[key := c]> (ConnectionPool p); allocated := allocated p |}
  else p.

(** [connectionConfig.workingDirectory || workingDirectory] *)
Definition or_default (a : option string) (b : string) : string :=
  match a with
  | Some s => if String.eqb s "" then b else s
  | None => b
  end.

(** [(await getPassword(...)) || undefined] *)
Definition or_undefined (a : option string) : option string :=
  if truthy_string a then a else None.

(** What the Postgres [configReader] closure returns when called. *)
Record PostgresOptions := {
  pg_username : option string;
  pg_host : option string;
  pg_password : option string;
  pg_port : option Z;
  pg_databaseName : option string
}.

Definition configReader (connectionConfig : ConnectionConfig) (keychain : Keychain)
    : PostgresOptions :=
  let password :=
    match read (password connectionConfig) with
    | Some pw => Some pw
    | None =>
        if truthy_bool (useKeychainPassword connectionConfig)
        then or_undefined
               (keychain !! (keychain_service, keychain_account (id connectionConfig)))
        else None
    end in
  {| pg_username := username connectionConfig;
     pg_host := host connectionConfig;
     pg_password := password;
     pg_port := port connectionConfig;
     pg_databaseName := databaseName connectionConfig |}.

Section WithBuild.

(** The build-time constant of common/duckdb_availability. *)
Variable isDuckDBAvailable : bool.

(** [path.dirname] of Node. *)
Variable path_dirname : string → string.

(** [getConnectionForConfig]: the promise it returns, and the new state.
    The read [ConnectionPool[connectionConfig.name]] finds an entry of the
    pool or, failing that, a member of [Object.prototype]; either is
    truthy and is returned as it is.  The database clients' constructors
    are taken to succeed, so the [catch] of the DuckDB case, which logs
    and rethrows, is not entered. *)
Definition getConnectionForConfig (connectionConfig : ConnectionConfig)
    (options : ConfigOptions) (p : Process)
    : Outcome (option Connection) * Process :=
  let usePool := read (opt_usePool options) in
  let rowLimit := opt_rowLimit options in
  match (if truthy_bool usePool
         then ConnectionPool p !! name connectionConfig else None) with
  | Some pooled => (Resolved (Some pooled), p)
  | None =>
      if truthy_bool usePool && inherited_name (name connectionConfig)
      then (Inherited (name connectionConfig), p)
      else
      match backend connectionConfig with
      | BigQuery =>
          let '(connection, p1) :=
            construct (BigQueryConnection (name connectionConfig) rowLimit
                         (projectName connectionConfig)
                         (serviceAccountKeyPath connectionConfig)
                         (location connectionConfig)) p in
          (Resolved (Some connection),
           pool_store usePool (name connectionConfig) connection p1)
      | Postgres =>
          let '(connection, p1) :=
            construct (PostgresConnection (name connectionConfig) rowLimit
                         connectionConfig) p in
          (Resolved (Some connection),
           pool_store usePool (name connectionConfig) connection p1)
      | DuckDB =>
          if negb isDuckDBAvailable
          then (Rejected (JsError "DuckDB is not available."), p)
          else
            let '(connection, p1) :=
              construct (DuckDBConnection (name connectionConfig) ":memory:"
                           (or_default (workingDirectory connectionConfig)
                                       (opt_workingDirectory options))) p in
            (Resolved (Some connection), p1)
      | OtherBackend _ => (Resolved None, p)
      end
  end.

(** Keys of [configs] and [connections]: a name, or the symbol
    [DEFAULT_CONFIG], which is [None]. *)
Definition DEFAULT_CONFIG : option string := None.

(** [connectionName || DEFAULT_CONFIG] *)
Definition connectionKey (connectionName : option string) : option string :=
  if truthy_string connectionName then connectionName else DEFAULT_CONFIG.

(** [`${connectionName}`] *)
Definition name_to_string (connectionName : option string) : string :=
  match connectionName with
  | Some s => s
  | None => "undefined"
  end.

(** A [DynamicConnectionLookup] object.  Its [configs] field is a reference
    to the manager's [configs] object, which the manager only ever mutates
    in place: the functions below take the current contents of that shared
    object as an argument. *)
Record DynamicConnectionLookup := {
  connections : gmap (option string) (Outcome (option Connection));
  options : ConfigOptions
}.

(** [{ usePool: true, ...this.options }] *)
Definition pooled_options (o : ConfigOptions) : ConfigOptions :=
  {| opt_workingDirectory := opt_workingDirectory o;
     opt_rowLimit := opt_rowLimit o;
     opt_usePool := match opt_usePool o with
                    | Missing => Holds (Some true)
                    | Holds v => Holds v
                    end |}.

(** [lookupConnection]: the promise it returns, the lookup object and the
    process afterwards.  The read [this.connections[connectionKey]] finds
    a promise the object holds or, failing that, a member of
    [Object.prototype], which is truthy and is returned as it is;
    [this.configs] is read only when neither is found. *)
Definition lookupConnection (connectionName : option string)
    (configs : gmap (option string) ConnectionConfig)
    (this : DynamicConnectionLookup) (p : Process)
    : Outcome (option Connection) * DynamicConnectionLookup * Process :=
  let key := connectionKey connectionName in
  match connections this !! key with
  | Some promise => (promise, this, p)
  | None =>
      match inherited_member key with
      | Some member => (Inherited member, this, p)
      | None =>
          match configs !! key with
          | Some connectionConfig =>
              let '(promise, p1) :=
                getConnectionForConfig connectionConfig
                  (pooled_options (options this)) p in
              (promise,
               {| connections := <[key := promise]> (connections this);
                  options := options this |},
               p1)
          | None =>
              (Rejected (JsString ("No connection found with name "
                                   +:+ name_to_string connectionName)),
               this, p)
          end
      end
  end.

Definition default_bigquery : ConnectionConfig :=
  {| name := "bigquery"; backend := BigQuery; id := "bigquery-default";
     isDefault := Some true; isGenerated := None;
     projectName := None; serviceAccountKeyPath := None; location := None;
     username := None; password := Missing; host := None; port := None;
     databaseName := None; useKeychainPassword := None;
     workingDirectory := None |}.

Definition default_duckdb : ConnectionConfig :=
  {| name := "duckdb"; backend := DuckDB; id := "duckdb-default";
     isDefault := Some false; isGenerated := None;
     projectName := None; serviceAccountKeyPath := None; location := None;
     username := None; password := Missing; host := None; port := None;
     databaseName := None; useKeychainPassword := None;
     workingDirectory := None |}.

Definition named_duckdb (config : ConnectionConfig) : bool :=
  String.eqb (name config) "duckdb".

(** The first half of [buildConfigMap]: the list the map is built from. *)
Definition resolved_configs (configs : list ConnectionConfig) : list ConnectionConfig :=
  let configs :=
    if (length configs =? 0)%nat then [default_bigquery] else configs in
  match List.find named_duckdb configs with
  | Some _ => configs
  | None => configs ++ [default_duckdb]
  end.

(** The body of the [forEach] in [buildConfigMap]. *)
Definition add_config (m : gmap (option string) ConnectionConfig)
    (config : ConnectionConfig) : gmap (option string) ConnectionConfig :=
  let m := if truthy_bool (isDefault config)
           then <[DEFAULT_CONFIG := config]> m else m in
  <[Some (name config) := config]> m.

(** [buildConfigMap], acting on [this.configs]. *)
Definition buildConfigMap (configs : list ConnectionConfig)
    (this_configs : gmap (option string) ConnectionConfig)
    : gmap (option string) ConnectionConfig :=
  fold_left add_config (resolved_configs configs) this_configs.

(** The manager, the lookup objects it has handed out (by reference) and
    the module-level state. *)
Record State := {
  process : Process;
  heap : gmap nat DynamicConnectionLookup;
  connectionLookups : gmap string nat;
  configs : gmap (option string) ConnectionConfig
}.

(** [new ConnectionManager(configs)] in a process with state [p]. *)
Definition new_ConnectionManager (l : list ConnectionConfig) (p : Process) : State :=
  {| process := p; heap := ∅; connectionLookups := ∅;
     configs := buildConfigMap l ∅ |}.

Definition setConnectionsConfig (connectionsConfig : list ConnectionConfig)
    (s : State) : State :=
  {| process := {| ConnectionPool := ∅; allocated := allocated (process s) |};
     heap := heap s;
     connectionLookups := ∅;
     configs := buildConfigMap connectionsConfig (configs s) |}.

Definition connectionForConfig (connectionConfig : ConnectionConfig) (s : State)
    : Outcome (option Connection) * State :=
  let '(promise, p1) :=
    getConnectionForConfig connectionConfig default_options (process s) in
  (promise,
   {| process := p1; heap := heap s; connectionLookups := connectionLookups s;
      configs := configs s |}).

(** [getCurrentRowLimit] *)
Definition getCurrentRowLimit : option Z := None.

(** A reference not yet in the heap. *)
Definition fresh_ref (h : gmap nat DynamicConnectionLookup) : nat :=
  fresh (dom h).

(** [getConnectionLookup(url)]: a reference to the lookup object of the
    URL's directory. *)
Definition getConnectionLookup (url : URL) (s : State) : nat * State :=
  let workingDirectory := path_dirname (pathname url) in
  match connectionLookups s !! workingDirectory with
  | Some r => (r, s)
  | None =>
      let r := fresh_ref (heap s) in
      (r,
       {| process := process s;
          heap := <[r := {| connections := ∅;
                            options := {| opt_workingDirectory := workingDirectory;
                                          opt_rowLimit := getCurrentRowLimit;
                                          opt_usePool := Missing |} |}]> (heap s);
          connectionLookups := <[workingDirectory := r]> (connectionLookups s);
          configs := configs s |})
  end.

(** [lookupConnection] called on the lookup object behind a reference. *)
Definition lookupConnection_at (r : nat) (connectionName : option string) (s : State)
    : option (Outcome (option Connection) * State) :=
  match heap s !! r with
  | None => None
  | Some this =>
      let '(promise, this1, p1) :=
        lookupConnection connectionName (configs s) this (process s) in
      Some (promise,
            {| process := p1; heap := <[r := this1]> (heap s);
               connectionLookups := connectionLookups s; configs := configs s |})
  end.

(** [config.backend !== ConnectionBackend.DuckDB] *)
Definition not_DuckDB (b : ConnectionBackend) : bool :=
  match b with
  | DuckDB => false
  | _ => true
  end.

Definition filterUnavailableConnectionBackends
    (connectionsConfig : list ConnectionConfig) : list ConnectionConfig :=
  List.filter (λ config, isDuckDBAvailable || not_DuckDB (backend config))
    connectionsConfig.

(** ** Notions used to state the properties *)

(** The state after a sequence of [getConnectionForConfig] calls, with any
    configurations and options. *)
Definition after_calls (calls : list (ConnectionConfig * ConfigOptions))
    (p : Process) : Process :=
  fold_left (λ q call, (getConnectionForConfig call.1 call.2 q).2) calls p.

(** A configuration from which a connection can be constructed. *)
Definition constructible (cfg : ConnectionConfig) : Prop :=
  backend cfg = BigQuery ∨ backend cfg = Postgres ∨
  (backend cfg = DuckDB ∧ isDuckDBAvailable = true).

End WithBuild.

(** ** Further notions and sample data *)

(** The default flag as [buildConfigMap] tests it. *)
Definition is_default (config : ConnectionConfig) : bool :=
  truthy_bool (isDefault config).

(** The last entry of a list whose default flag is set. *)
Definition last_default (l : list ConnectionConfig) : option ConnectionConfig :=
  List.find is_default (rev l).

(** Two sample configurations, both flagged as default. *)
Definition sample_a : ConnectionConfig :=
  {| name := "a"; backend := BigQuery; id := "id-a";
     isDefault := Some true; isGenerated := None;
     projectName := Some "project"; serviceAccountKeyPath := None;
     location := Some "US";
     username := None; password := Missing; host := None; port := None;
     databaseName := None; useKeychainPassword := None;
     workingDirectory := None |}.

Definition sample_b : ConnectionConfig :=
  {| name := "b"; backend := Postgres; id := "id-b";
     isDefault := Some true; isGenerated := None;
     projectName := None; serviceAccountKeyPath := None; location := None;
     username := Some "malloy"; password := Holds (Some "secret");
     host := Some "localhost"; port := Some 5432;
     databaseName := Some "db"; useKeychainPassword := None;
     workingDirectory := None |}.

(** A configuration whose backend tag is not one of the three kinds. *)
Definition sample_other : ConnectionConfig :=
  {| name := "lake"; backend := OtherBackend "snowflake"; id := "id-lake";
     isDefault := Some false; isGenerated := None;
     projectName := None; serviceAccountKeyPath := None; location := None;
     username := None; password := Missing; host := None; port := None;
     databaseName := None; useKeychainPassword := None;
     workingDirectory := None |}.

(** A configuration of an unknown backend whose name is the name of a
    member of [Object.prototype]. *)
Definition sample_constructor : ConnectionConfig :=
  {| name := "constructor"; backend := OtherBackend "snowflake"; id := "id-c";
     isDefault := Some false; isGenerated := None;
     projectName := None; serviceAccountKeyPath := None; location := None;
     username := None; password := Missing; host := None; port := None;
     databaseName := None; useKeychainPassword := None;
     workingDirectory := None |}.

(** The state of a process that has constructed nothing yet. *)
Definition fresh_process : Process := {| ConnectionPool := ∅; allocated := 0 |}.

(** Options of a lookup with pooling enabled. *)
Definition sample_pooled : ConfigOptions :=
  {| opt_workingDirectory := "/home/me";
     opt_rowLimit := None;
     opt_usePool := Holds (Some true) |}.

(** [opts] enables pooling. *)
Definition pooling (opts : ConfigOptions) : bool :=
  truthy_bool (read (opt_usePool opts)).

(** Every pooled object has been constructed in this process. *)
Definition pool_wf (p : Process) : Prop :=
  ∀ key c, ConnectionPool p !! key = Some c → (object_id c < allocated p)%nat.

(** No pooled object is found: pooling is off, or the pool has no entry
    and the name reaches no member of [Object.prototype]. *)
Definition pool_miss (cfg : ConnectionConfig) (opts : ConfigOptions) (p : Process) : Prop :=
  pooling opts = true →
  ConnectionPool p !! name cfg = None ∧ inherited_name (name cfg) = false.

(** A lookup object of the directory [/home/me] that has resolved nothing. *)
Definition sample_lookup : DynamicConnectionLookup :=
  {| connections := ∅;
     options := {| opt_workingDirectory := "/home/me";
                   opt_rowLimit := getCurrentRowLimit;
                   opt_usePool := Missing |} |}.

(** The first and the second pooled lookup of the synthesized DuckDB
    configuration, in a process where DuckDB is available. *)
Definition duckdb_first : Outcome (option Connection) * Process :=
  getConnectionForConfig true default_duckdb sample_pooled fresh_process.

Definition duckdb_second : Outcome (option Connection) * Process :=
  getConnectionForConfig true default_duckdb sample_pooled duckdb_first.2.

(** The name a connection object was constructed with. *)
Definition connection_name (args : ConnectionArgs) : string :=
  match args with
  | BigQueryConnection n _ _ _ _ => n
  | PostgresConnection n _ _ => n
  | DuckDBConnection n _ _ => n
  end.

Definition is_DuckDBConnection (args : ConnectionArgs) : bool :=
  match args with
  | DuckDBConnection _ _ _ => true
  | _ => false
  end.

(** What holds of every pool reached from an empty one: an entry has been
    constructed in this process, under the name it is stored at, and is not
    a DuckDB connection; no object is stored under two names. *)
Definition pool_ok (p : Process) : Prop :=
  (∀ key c, ConnectionPool p !! key = Some c →
            (object_id c < allocated p)%nat ∧
            connection_name (built c) = key ∧
            is_DuckDBConnection (built c) = false) ∧
  (∀ key1 key2 c1 c2,
     ConnectionPool p !! key1 = Some c1 → ConnectionPool p !! key2 = Some c2 →
     object_id c1 = object_id c2 → key1 = key2).

(** No pool entry is stored under the name of a member of
    [Object.prototype]. *)
Definition own_names_ok (p : Process) : Prop :=
  ∀ key c, ConnectionPool p !! key = Some c → inherited_name key = false.

(** [config.name === n] *)
Definition named (n : string) (config : ConnectionConfig) : bool :=
  String.eqb (name config) n.

(** The last entry of a list that carries the name [n]. *)
Definition last_named (n : string) (l : list ConnectionConfig)
    : option ConnectionConfig :=
  List.find (named n) (rev l).

(** The lookup objects the manager has registered exist, and no lookup
    object is registered for two directories. *)
Definition lookups_ok (s : State) : Prop :=
  (∀ wd r, connectionLookups s !! wd = Some r → is_Some (heap s !! r)) ∧
  (∀ wd1 wd2 r, connectionLookups s !! wd1 = Some r →
                connectionLookups s !! wd2 = Some r → wd1 = wd2).

(** A [path.dirname] for concrete runs, for paths without trailing or
    doubled slashes: the path up to its last slash, ["/"] for a file of
    the root directory, ["."] for a path without a slash. *)
Fixpoint has_slash (path : string) : bool :=
  match path with
  | EmptyString => false
  | String a rest => String.eqb (String a EmptyString) "/" || has_slash rest
  end.

Fixpoint up_to_last_slash (path : string) : string :=
  match path with
  | EmptyString => EmptyString
  | String a rest => if has_slash rest then String a (up_to_last_slash rest)
                     else EmptyString
  end.

Definition sample_dirname (path : string) : string :=
  match up_to_last_slash path with
  | EmptyString => if has_slash path then "/" else "."
  | directory => directory
  end.

(** A document and a second one in the same directory, a third elsewhere. *)
Definition flights_url : URL :=
  {| href := "file:///home/me/flights.malloy"; pathname := "/home/me/flights.malloy" |}.

Definition airports_url : URL :=
  {| href := "file:///home/me/airports.malloy"; pathname := "/home/me/airports.malloy" |}.

Definition other_url : URL :=
  {| href := "file:///srv/data/x.malloy"; pathname := "/srv/data/x.malloy" |}.

(** A state in which the lookup object at reference 0 holds a connection
    for the name ["a"]. *)
Definition held_connection : Connection :=
  {| object_id := 0;
     built := BigQueryConnection "a" None (Some "project") None (Some "US") |}.

(** The manager of a process in which one pooled lookup of [sample_a] has
    been made. *)
Definition pooled_state : State :=
  {| process := (getConnectionForConfig true sample_a sample_pooled fresh_process).2;
     heap := ∅;
     connectionLookups := ∅;
     configs := buildConfigMap [sample_a] ∅ |}.

Definition held_state : State :=
  {| process := {| ConnectionPool := {[ "a" := held_connection ]}; allocated := 1 |};
     heap := {[ 0%nat := {| connections := {[ Some "a" := Resolved (Some held_connection) ]};
                            options := options sample_lookup |} ]};
     connectionLookups := {[ "/home/me" := 0%nat ]};
     configs := buildConfigMap [sample_a] ∅ |}.

End ConnectionManager.

(** * Model and query materializers *)
Module CreateRunnable.

(** The optional [refreshSchemaCache] argument: omitted, a boolean, or a
    number (a timestamp in milliseconds). *)
Inductive RefreshSchemaCache :=
| Omitted
| Flag (b : bool)
| Timestamp (n : Z).

(** Truthiness: [undefined], [false] and [0] are falsy. *)
Definition truthy_refresh (r : RefreshSchemaCache) : bool :=
  match r with
  | Omitted => false
  | Flag b => b
  | Timestamp n => negb (n =? 0)
  end.

(** [typeof r !== 'number'] *)
Definition not_number (r : RefreshSchemaCache) : bool :=
  match r with
  | Timestamp _ => false
  | _ => true
  end.

(** The options object handed to [loadModel] and [extendModel]. *)
Record LoadOptions := {
  importBaseURL : option URL;
  refreshSchemaCache : RefreshSchemaCache
}.

(** Modelled from the spec: the type [CellData] is declared in
    common/types.ts, which is not among the sources.  The spec describes an
    ordered sequence of notebook cell descriptors (uri, language id) plus a
    base URI. *)
Record Cell := { uri : string; languageId : string }.

Record CellData := { baseUri : string; cells : list Cell }.

(** Modelled from the spec: the type [WorkerQuerySpec] is declared in
    common/worker_message_types.ts, which is not among the sources.  The
    spec describes a variant tagged by a [type] discriminator ([string],
    [named], [file], [named_sql], [unnamed_sql]) that carries the document
    URI and a query text, a name or an index. *)
Record WorkerQuerySpec := {
  query_type : string;
  query_uri : string;
  query_text : string;
  query_name : string;
  query_index : Z
}.

Section WithRuntime.

(** The Malloy [Runtime] objects. *)
Variable Runtime : Type.

(** The URL constructor: [None] when [new URL(input)] throws. *)
Variable new_URL : string → option URL.

(** A model materializer is lazy: it is the record of the calls that
    built it. *)
Inductive ModelMaterializer :=
| loadModel (runtime : Runtime) (url : URL) (options : LoadOptions)
| extendModel (mm : ModelMaterializer) (url : URL) (options : LoadOptions).

(** The query and SQL-block materializers obtained from a model. *)
Inductive Runnable :=
| loadQuery (mm : ModelMaterializer) (text : string)
| loadQueryByName (mm : ModelMaterializer) (queryName : string)
| loadFinalQuery (mm : ModelMaterializer)
| loadQueryByIndex (mm : ModelMaterializer) (index : Z)
| loadSQLBlockByName (mm : ModelMaterializer) (blockName : string)
| loadSQLBlockByIndex (mm : ModelMaterializer) (index : Z).

Definition invalid_URL : Thrown := JsTypeError "Invalid URL".

(** The [for ... of cellData.cells] loop, [mm] being the loop-carried
    variable. *)
Fixpoint load_cells (runtime : Runtime) (base : URL)
    (refresh : RefreshSchemaCache) (cellList : list Cell)
    (mm : option ModelMaterializer) : Outcome (option ModelMaterializer) :=
  match cellList with
  | [] => Resolved mm
  | cell :: rest =>
      if String.eqb (languageId cell) "malloy" then
        match new_URL (uri cell) with
        | None => Rejected invalid_URL
        | Some url =>
            let options := {| importBaseURL := Some base;
                              refreshSchemaCache := refresh |} in
            load_cells runtime base refresh rest
              (Some match mm with
                    | Some m => extendModel m url options
                    | None => loadModel runtime url options
                    end)
        end
      else load_cells runtime base refresh rest mm
  end.

(** [createModelMaterializer]; [now] is what [Date.now()] returns during
    the call.  The [console.debug] lines are left out. *)
Definition createModelMaterializer (documentUri : string) (runtime : Runtime)
    (cellData : option CellData) (refresh : RefreshSchemaCache) (now : Z)
    : Outcome (option ModelMaterializer) :=
  match new_URL documentUri with
  | None => Rejected invalid_URL
  | Some queryFileURL =>
      match cellData with
      | Some cellData =>
          let refresh :=
            if truthy_refresh refresh && not_number refresh
            then Timestamp now else refresh in
          match new_URL (baseUri cellData) with
          | None => Rejected invalid_URL
          | Some base => load_cells runtime base refresh (cells cellData) None
          end
      | None =>
          Resolved (Some (loadModel runtime queryFileURL
                            {| importBaseURL := None;
                               refreshSchemaCache := refresh |}))
      end
  end.

Definition createRunnable (query : WorkerQuerySpec) (runtime : Runtime)
    (cellData : option CellData) (now : Z) : Outcome Runnable :=
  match createModelMaterializer (query_uri query) runtime cellData Omitted now with
  | Rejected e => Rejected e
  | Resolved None => Rejected (JsError "Missing model definition")
  | Resolved (Some mm) =>
      if String.eqb (query_type query) "string" then
        Resolved (loadQuery mm (query_text query))
      else if String.eqb (query_type query) "named" then
        Resolved (loadQueryByName mm (query_name query))
      else if String.eqb (query_type query) "file" then
        if query_index query =? -1
        then Resolved (loadFinalQuery mm)
        else Resolved (loadQueryByIndex mm (query_index query))
      else if String.eqb (query_type query) "named_sql" then
        Resolved (loadSQLBlockByName mm (query_name query))
      else if String.eqb (query_type query) "unnamed_sql" then
        Resolved (loadSQLBlockByIndex mm (query_index query))
      else Rejected (JsError "Internal Error: Unexpected query type")
  end.

(** ** Notions used to state the properties *)

(** The options of every [loadModel] and [extendModel] call behind a
    model, the first call first. *)
Fixpoint options_used (mm : ModelMaterializer) : list LoadOptions :=
  match mm with
  | loadModel _ _ options => [options]
  | extendModel m _ options => options_used m ++ [options]
  end.

(** Extending a model by a list of URLs, in order. *)
Definition extended (options : LoadOptions) (mm : ModelMaterializer)
    (urls : list URL) : ModelMaterializer :=
  fold_left (λ m url, extendModel m url options) urls mm.

(** The single accumulating model: the first URL initializes it, every
    further URL extends it; no URL, no model. *)
Definition accumulated (runtime : Runtime) (options : LoadOptions)
    (urls : list URL) : option (ModelMaterializer) :=
  match urls with
  | [] => None
  | url :: rest => Some (extended options (loadModel runtime url options) rest)
  end.

(** The URLs of a list of cells, if all of them parse. *)
Fixpoint parse_all (cellList : list Cell) : option (list URL) :=
  match cellList with
  | [] => Some []
  | cell :: rest =>
      match new_URL (uri cell), parse_all rest with
      | Some url, Some urls => Some (url :: urls)
      | _, _ => None
      end
  end.

(** The model a runnable has been obtained from. *)
Definition model_of (r : Runnable) : ModelMaterializer :=
  match r with
  | loadQuery mm _ => mm
  | loadQueryByName mm _ => mm
  | loadFinalQuery mm => mm
  | loadQueryByIndex mm _ => mm
  | loadSQLBlockByName mm _ => mm
  | loadSQLBlockByIndex mm _ => mm
  end.

End WithRuntime.

Arguments loadModel {Runtime} runtime url options.
Arguments extendModel {Runtime} mm url options.
Arguments loadQuery {Runtime} mm text.
Arguments loadQueryByName {Runtime} mm queryName.
Arguments loadFinalQuery {Runtime} mm.
Arguments loadQueryByIndex {Runtime} mm index.
Arguments loadSQLBlockByName {Runtime} mm blockName.
Arguments loadSQLBlockByIndex {Runtime} mm index.
Arguments load_cells {Runtime} new_URL runtime base refresh cellList mm.
Arguments createModelMaterializer {Runtime} new_URL documentUri runtime cellData refresh now.
Arguments createRunnable {Runtime} new_URL query runtime cellData now.
Arguments options_used {Runtime} mm.
Arguments model_of {Runtime} r.
Arguments extended {Runtime} options mm urls.
Arguments accumulated {Runtime} runtime options urls.

(** ** Further notions and sample data *)

(** [languageId === 'malloy'] *)
Definition is_malloy (cell : Cell) : bool := String.eqb (languageId cell) "malloy".

(** The cells that hold query source, in notebook order. *)
Definition malloy_cells (cellList : list Cell) : list Cell :=
  List.filter is_malloy cellList.

(** The flag after [createModelMaterializer] has normalized it. *)
Definition normalized (refresh : RefreshSchemaCache) (now : Z) : RefreshSchemaCache :=
  match refresh with
  | Flag true => Timestamp now
  | _ => refresh
  end.

(** The query-reference kinds [createRunnable] knows. *)
Definition recognized (tag : string) : bool :=
  String.eqb tag "string" || String.eqb tag "named" || String.eqb tag "file"
  || String.eqb tag "named_sql" || String.eqb tag "unnamed_sql".

(** A stand-in for the URL constructor in concrete runs: it rejects the
    empty string and takes every other string as it is, where the
    constructor of Node also rejects strings without a scheme. *)
Definition sample_new_URL (input : string) : option URL :=
  if String.eqb input "" then None
  else Some {| href := input; pathname := input |}.

Definition sample_URL (input : string) : URL :=
  {| href := input; pathname := input |}.

(** The notebook of three cells: Malloy, text, Malloy. *)
Definition sample_cells : CellData :=
  {| baseUri := "file:///nb/";
     cells := [ {| uri := "a"; languageId := "malloy" |};
                {| uri := "b"; languageId := "text" |};
                {| uri := "c"; languageId := "malloy" |} ] |}.

(** The options every cell of [sample_cells] is loaded with. *)
Definition sample_options (refresh : RefreshSchemaCache) : LoadOptions :=
  {| importBaseURL := Some (sample_URL "file:///nb/"); refreshSchemaCache := refresh |}.

(** The query "the final query of the file". *)
Definition sample_final_query : WorkerQuerySpec :=
  {| query_type := "file"; query_uri := "file:///q.malloy";
     query_text := ""; query_name := ""; query_index := -1 |}.

(** A query whose type tag is not one of the five. *)
Definition sample_unknown_query : WorkerQuerySpec :=
  {| query_type := "sql"; query_uri := "file:///q.malloy";
     query_text := ""; query_name := ""; query_index := 0 |}.

(** A notebook without any Malloy cell. *)
Definition sample_text_cells : CellData :=
  {| baseUri := "file:///nb/";
     cells := [ {| uri := "b"; languageId := "text" |} ] |}.

End CreateRunnable.

(** * Saving the connection list *)
Module EditConnections.

(** The keytar calls the save hook makes. *)
Inductive KeytarCall :=
| deletePassword (service account : string)
| setPassword (service account password : string).

(** The effect of a keytar call on the keychain. *)
Definition keytar_apply (keychain : Keychain) (call : KeytarCall) : Keychain :=
  match call with
  | deletePassword service account => delete (service, account) keychain
  | setPassword service account pw => <[(service, account) := pw]> keychain
  end.

Definition set_isDefault (b : bool) (c : ConnectionConfig) : ConnectionConfig :=
  {| name := name c; backend := backend c; id := id c;
     isDefault := Some b; isGenerated := isGenerated c;
     projectName := projectName c;
     serviceAccountKeyPath := serviceAccountKeyPath c; location := location c;
     username := username c; password := password c; host := host c;
     port := port c; databaseName := databaseName c;
     useKeychainPassword := useKeychainPassword c;
     workingDirectory := workingDirectory c |}.

Definition set_useKeychainPassword (v : option bool) (c : ConnectionConfig)
    : ConnectionConfig :=
  {| name := name c; backend := backend c; id := id c;
     isDefault := isDefault c; isGenerated := isGenerated c;
     projectName := projectName c;
     serviceAccountKeyPath := serviceAccountKeyPath c; location := location c;
     username := username c; password := password c; host := host c;
     port := port c; databaseName := databaseName c;
     useKeychainPassword := v;
     workingDirectory := workingDirectory c |}.

(** [{...connection, password: undefined, useKeychainPassword: true}] *)
Definition scrubbed (c : ConnectionConfig) : ConnectionConfig :=
  {| name := name c; backend := backend c; id := id c;
     isDefault := isDefault c; isGenerated := isGenerated c;
     projectName := projectName c;
     serviceAccountKeyPath := serviceAccountKeyPath c; location := location c;
     username := username c; password := Holds None; host := host c;
     port := port c; databaseName := databaseName c;
     useKeychainPassword := Some true;
     workingDirectory := workingDirectory c |}.

(** [index === defaultIndex], the right side a number or [undefined]. *)
Definition is_index (index : nat) (defaultIndex : option nat) : bool :=
  match defaultIndex with
  | Some d => (index =? d)%nat
  | None => false
  end.

(** [useKeychainPassword === false] *)
Definition is_false (b : option bool) : bool :=
  match b with
  | Some false => true
  | _ => false
  end.

(** What the hook has produced so far: the list it will return, the
    input objects as it has mutated them, and its keytar calls. *)
Record PreSave := {
  modifiedConnections : list ConnectionConfig;
  mutated : list ConnectionConfig;
  keytar : list KeytarCall
}.

(** One iteration of the loop of [handleConnectionsPreSave]. *)
Definition preSave_iteration (defaultIndex : option nat) (index : nat)
    (connection : ConnectionConfig) (acc : PreSave) : PreSave :=
  let connection := set_isDefault (is_index index defaultIndex) connection in
  if has_property (password connection) then
    let '(connection, calls) :=
      if is_false (useKeychainPassword connection)
      then (set_useKeychainPassword None connection,
            keytar acc ++ [ deletePassword keychain_service
                              (keychain_account (id connection)) ])
      else (connection, keytar acc) in
    match read (password connection) with
    | Some pw =>
        if negb (String.eqb pw "") then
          {| modifiedConnections := modifiedConnections acc ++ [ scrubbed connection ];
             mutated := mutated acc ++ [ connection ];
             keytar := calls ++ [ setPassword keychain_service
                                    (keychain_account (id connection)) pw ] |}
        else
          {| modifiedConnections := modifiedConnections acc;
             mutated := mutated acc ++ [ connection ];
             keytar := calls |}
    | None =>
        {| modifiedConnections := modifiedConnections acc;
           mutated := mutated acc ++ [ connection ];
           keytar := calls |}
    end
  else if negb (truthy_bool (isGenerated connection)) then
    {| modifiedConnections := modifiedConnections acc ++ [ connection ];
       mutated := mutated acc ++ [ connection ];
       keytar := keytar acc |}
  else
    {| modifiedConnections := modifiedConnections acc;
       mutated := mutated acc ++ [ connection ];
       keytar := keytar acc |}.

(** The loop from [index] on. *)
Fixpoint preSave_loop (defaultIndex : option nat) (index : nat)
    (connections : list ConnectionConfig) (acc : PreSave) : PreSave :=
  match connections with
  | [] => acc
  | connection :: rest =>
      preSave_loop defaultIndex (S index) rest
        (preSave_iteration defaultIndex index connection acc)
  end.

Section WithDefaultIndex.

(** [getDefaultIndex] of connection_manager_types.ts, which is not among
    the sources: the index of the default connection, or [undefined]. *)
Variable getDefaultIndex : list ConnectionConfig → option nat.

(** [handleConnectionsPreSave]; keytar is taken not to fail. *)
Definition handleConnectionsPreSave (connections : list ConnectionConfig) : PreSave :=
  preSave_loop (getDefaultIndex connections) 0%nat connections
    {| modifiedConnections := []; mutated := []; keytar := [] |}.

End WithDefaultIndex.

(** ** Notions used to state the properties, and sample data *)

(** What the hook returns for the connection at [index]: the scrubbed copy
    for a non-empty password, nothing for a password field without a
    value and for a generated connection without a password field, and the
    connection itself otherwise; always with the default flag recomputed. *)
Definition kept (defaultIndex : option nat) (index : nat) (c : ConnectionConfig)
    : option ConnectionConfig :=
  let c' := set_isDefault (is_index index defaultIndex) c in
  if has_property (password c) then
    if truthy_string (read (password c)) then Some (scrubbed c') else None
  else if truthy_bool (isGenerated c) then None else Some c'.

(** The returned list: what is kept of each connection, in order. *)
Fixpoint returned_from (defaultIndex : option nat) (index : nat)
    (l : list ConnectionConfig) : list ConnectionConfig :=
  match l with
  | [] => []
  | c :: rest =>
      match kept defaultIndex index c with
      | Some c' => c' :: returned_from defaultIndex (S index) rest
      | None => returned_from defaultIndex (S index) rest
      end
  end.

(** The password writes the hook makes, in order. *)
Definition password_writes (l : list ConnectionConfig) : list KeytarCall :=
  List.flat_map
    (λ c, match read (password c) with
          | Some pw => if String.eqb pw "" then []
                       else [ setPassword keychain_service (keychain_account (id c)) pw ]
          | None => []
          end) l.

(** [getDefaultIndex] for concrete runs: the first entry flagged as
    default, else the first entry. *)
Definition sample_getDefaultIndex (l : list ConnectionConfig) : option nat :=
  match list_find (λ c, isDefault c = Some true) l with
  | Some (i, _) => Some i
  | None => match l with [] => None | _ => Some 0%nat end
  end.

Definition blank (n : string) (b : ConnectionBackend) : ConnectionConfig :=
  {| name := n; backend := b; id := "id-" +:+ n;
     isDefault := Some false; isGenerated := None;
     projectName := None; serviceAccountKeyPath := None; location := None;
     username := None; password := Missing; host := None; port := None;
     databaseName := None; useKeychainPassword := None;
     workingDirectory := None |}.

(** A Postgres connection with a typed-in password, one whose password
    field is present but empty, a generated DuckDB connection and a plain
    BigQuery connection. *)
Definition with_password : ConnectionConfig :=
  {| name := "pg"; backend := Postgres; id := "id-pg";
     isDefault := Some false; isGenerated := None;
     projectName := None; serviceAccountKeyPath := None; location := None;
     username := Some "malloy"; password := Holds (Some "secret");
     host := Some "localhost"; port := Some 5432;
     databaseName := Some "db"; useKeychainPassword := Some false;
     workingDirectory := None |}.

Definition with_empty_password : ConnectionConfig :=
  {| name := "pg2"; backend := Postgres; id := "id-pg2";
     isDefault := Some true; isGenerated := None;
     projectName := None; serviceAccountKeyPath := None; location := None;
     username := Some "malloy"; password := Holds None;
     host := Some "localhost"; port := Some 5432;
     databaseName := Some "db"; useKeychainPassword := Some true;
     workingDirectory := None |}.

Definition generated_duckdb : ConnectionConfig :=
  {| name := "duckdb"; backend := DuckDB; id := "duckdb-default";
     isDefault := Some false; isGenerated := Some true;
     projectName := None; serviceAccountKeyPath := None; location := None;
     username := None; password := Missing; host := None; port := None;
     databaseName := None; useKeychainPassword := None;
     workingDirectory := None |}.

Definition sample_list : list ConnectionConfig :=
  [ with_password; with_empty_password; generated_duckdb; blank "bq" BigQuery ].

(** The keytar calls one connection gives rise to: the deletion for a
    password field with [useKeychainPassword === false], then the write of
    a non-empty password. *)
Definition keytar_calls_of (c : ConnectionConfig) : list KeytarCall :=
  (if has_property (password c) && is_false (useKeychainPassword c)
   then [ deletePassword keychain_service (keychain_account (id c)) ]
   else []) ++
  (if truthy_string (read (password c))
   then match read (password c) with
        | Some pw => [ setPassword keychain_service (keychain_account (id c)) pw ]
        | None => []
        end
   else []).

(** The keychain after a sequence of keytar calls. *)
Definition keychain_after (calls : list KeytarCall) (keychain : Keychain) : Keychain :=
  fold_left keytar_apply calls keychain.

(** Two configurations that differ at most in [isDefault] and
    [useKeychainPassword]. *)
Definition same_but_flags (c c' : ConnectionConfig) : Prop :=
  name c' = name c ∧ backend c' = backend c ∧ id c' = id c ∧
  isGenerated c' = isGenerated c ∧ projectName c' = projectName c ∧
  serviceAccountKeyPath c' = serviceAccountKeyPath c ∧ location c' = location c ∧
  username c' = username c ∧ password c' = password c ∧ host c' = host c ∧
  port c' = port c ∧ databaseName c' = databaseName c ∧
  workingDirectory c' = workingDirectory c.

(** ** The command *)

(** The tree item the command may be invoked on, as far as it is read. *)
Record ConnectionItem := { item_id : option string }.

(** The module variable [panel] and the [EditConnectionPanel] objects:
    how many have been constructed (a panel is identified by its rank), the
    ones not disposed yet, and the [reveal] calls made. *)
Record Panels := {
  panel : option nat;
  constructed : nat;
  alive : list nat;
  reveals : list (nat * option string)
}.

Definition no_panels : Panels :=
  {| panel := None; constructed := 0; alive := []; reveals := [] |}.

(** The panel the module variable refers to, as a list. *)
Definition current_panel (s : Panels) : list nat :=
  match panel s with
  | Some k => [k]
  | None => []
  end.

(** [item?.id] *)
Definition optional_id (item : option ConnectionItem) : option string :=
  match item with
  | Some i => item_id i
  | None => None
  end.

Definition editConnectionsCommand (item : option ConnectionItem) (s : Panels) : Panels :=
  let s1 :=
    match panel s with
    | Some _ => s
    | None =>
        {| panel := Some (constructed s);
           constructed := S (constructed s);
           alive := constructed s :: alive s;
           reveals := reveals s |}
    end in
  match panel s1 with
  | Some k =>
      {| panel := panel s1; constructed := constructed s1; alive := alive s1;
         reveals := reveals s1 ++ [ (k, optional_id item) ] |}
  | None => s1
  end.

(** Panel [k] is disposed: if it is alive, the listener the command
    registered on it runs, [panel = null]. *)
Definition dispose_panel (k : nat) (s : Panels) : Panels :=
  if bool_decide (k ∈ alive s)
  then {| panel := None; constructed := constructed s;
          alive := List.filter (λ j, negb (j =? k)%nat) (alive s);
          reveals := reveals s |}
  else s.

Inductive PanelEvent :=
| Command (item : option ConnectionItem)
| Disposed (k : nat).

Definition panel_step (s : Panels) (e : PanelEvent) : Panels :=
  match e with
  | Command item => editConnectionsCommand item s
  | Disposed k => dispose_panel k s
  end.

Definition panel_run (events : list PanelEvent) (s : Panels) : Panels :=
  fold_left panel_step events s.

End EditConnections.

(** * Properties of the worker supervisor *)
Module WorkerProofs.
Import Worker.

Example exit_zero_example :
  exit_handler (Code 0) (new_WorkerConnection "/ext/dist/worker.js")
  = new_WorkerConnection "/ext/dist/worker.js".
Proof. reflexivity. Qed.

Example exit_one_example :
  console (exit_handler (Code 1) (new_WorkerConnection "/ext/dist/worker.js"))
  = [ console_error "Worker exited with 1"; console_info "Restarting in 5 seconds" ].
Proof. vm_compute. reflexivity. Qed.

Lemma status_nonzero_false (status : ExitStatus) :
  status_nonzero status = false ↔ status = Code 0.
Proof.
  split.
  - destruct status as [[| p | p] |]; simpl; congruence.
  - intros ->. reflexivity.
Qed.

Lemma status_nonzero_true (status : ExitStatus) :
  status_nonzero status = true ↔ status ≠ Code 0.
Proof.
  rewrite <- status_nonzero_false.
  destruct (status_nonzero status); split; congruence.
Qed.

Lemma stop_forks s : forks (stop s) = forks s.
Proof. reflexivity. Qed.

Lemma stop_timers s : timers (stop s) = timers s.
Proof. reflexivity. Qed.

Lemma exit_handler_timers status s :
  timers (exit_handler status s)
  = if status_nonzero status
    then timers s ++ [ {| callback := StartWorker; delay := 5000 |} ]
    else timers s.
Proof. unfold exit_handler. destruct (status_nonzero status); reflexivity. Qed.

Lemma run_timer_forks t rest s :
  timers s = t :: rest →
  length (forks (run_timer s)) = S (length (forks s)) ∧ timers (run_timer s) = rest.
Proof.
  intros Ht. unfold run_timer. rewrite Ht. destruct t as [[] d]. simpl.
  rewrite length_app. simpl. split; [lia | reflexivity].
Qed.

(** C4.  An exit with status 0 changes nothing (no restart is scheduled, and
    nothing is logged); an exit with any other status logs the failure and
    appends exactly one timer, with delay 5000 ms and callback
    [startWorker], without forking at once; running that timer forks
    exactly one new worker. *)
Theorem exit_handler_restart_policy (status : ExitStatus) (s : WorkerConnection) :
  (status = Code 0 → exit_handler status s = s) ∧
  (status ≠ Code 0 →
     timers (exit_handler status s)
       = timers s ++ [ {| callback := StartWorker; delay := 5000 |} ] ∧
     console (exit_handler status s)
       = console s ++
         [ console_error ("Worker exited with " +:+ status_to_string status);
           console_info "Restarting in 5 seconds" ] ∧
     forks (exit_handler status s) = forks s ∧
     worker (exit_handler status s) = worker s ∧
     (timers s = [] →
        length (forks (run_timer (exit_handler status s))) = S (length (forks s)) ∧
        timers (run_timer (exit_handler status s)) = [])).
Proof.
  split.
  - intros ->. reflexivity.
  - intros Hne. apply status_nonzero_true in Hne.
    unfold exit_handler. rewrite Hne. simpl.
    split; [ reflexivity | ]. split; [ reflexivity | ].
    split; [ reflexivity | ]. split; [ reflexivity | ].
    intros Hnil. unfold run_timer. simpl. rewrite Hnil. simpl.
    rewrite length_app. simpl. split; [ lia | reflexivity ].
Qed.

Lemma exit_handler_restart_policy_witness :
  exit_handler (Code 0) (new_WorkerConnection "/ext/dist/worker.js")
    = new_WorkerConnection "/ext/dist/worker.js" ∧
  timers (exit_handler (Code 3) (new_WorkerConnection "/ext/dist/worker.js"))
    = [ {| callback := StartWorker; delay := 5000 |} ] ∧
  length (forks (run_timer
     (exit_handler (Code 3) (new_WorkerConnection "/ext/dist/worker.js")))) = 2%nat.
Proof.
  pose proof (exit_handler_restart_policy (Code 0)
                (new_WorkerConnection "/ext/dist/worker.js")) as [H0 _].
  pose proof (exit_handler_restart_policy (Code 3)
                (new_WorkerConnection "/ext/dist/worker.js")) as [_ H3].
  split; [ apply H0; reflexivity | ].
  destruct H3 as (Ht & _ & _ & _ & Hrun); [ discriminate | ].
  split; [ exact Ht | ].
  destruct Hrun as [Hlen _]; [ reflexivity | exact Hlen ].
Defined.

(** C1 as stated fails: after [stop()], an exit event with a non-zero
    status (or with the [null] status of a signal-terminated child) still
    schedules a restart. *)
Lemma stop_then_exit_restarts :
  timers (exit_handler (Code 1) (stop (new_WorkerConnection "/ext/dist/worker.js")))
    ≠ timers (stop (new_WorkerConnection "/ext/dist/worker.js")) ∧
  timers (exit_handler Null (stop (new_WorkerConnection "/ext/dist/worker.js")))
    = [ {| callback := StartWorker; delay := 5000 |} ].
Proof. split; [ discriminate | reflexivity ]. Qed.

(** C1, amended.  [stop()] only sends SIGHUP to the current child and
    records nothing else: a later exit event is handled exactly as it would
    be without [stop()].  Status 0 schedules no restart; every other status
    schedules one restart after 5000 ms. *)
Theorem stop_does_not_change_exit_handling (status : ExitStatus) (s : WorkerConnection) :
  signals (stop s) = signals s ++ [ (worker s, "SIGHUP") ] ∧
  timers (exit_handler status (stop s)) = timers (exit_handler status s) ∧
  forks (exit_handler status (stop s)) = forks (exit_handler status s) ∧
  console (exit_handler status (stop s)) = console (exit_handler status s) ∧
  (status = Code 0 → timers (exit_handler status (stop s)) = timers s) ∧
  (status ≠ Code 0 →
     timers (exit_handler status (stop s))
       = timers s ++ [ {| callback := StartWorker; delay := 5000 |} ]).
Proof.
  split; [ reflexivity | ].
  unfold exit_handler.
  destruct (status_nonzero status) eqn:Hnz; simpl.
  - do 3 (split; [ reflexivity | ]). split; [ | reflexivity ].
    intros ->. discriminate Hnz.
  - do 3 (split; [ reflexivity | ]). split; [ reflexivity | ].
    intros H. apply status_nonzero_true in H. congruence.
Qed.

Lemma stop_does_not_change_exit_handling_witness :
  timers (exit_handler (Code 0) (stop (new_WorkerConnection "/ext/dist/worker.js"))) = [] ∧
  timers (exit_handler Null (stop (new_WorkerConnection "/ext/dist/worker.js")))
    = [ {| callback := StartWorker; delay := 5000 |} ].
Proof.
  pose proof (stop_does_not_change_exit_handling (Code 0)
                (new_WorkerConnection "/ext/dist/worker.js")) as (_ & _ & _ & _ & H0 & _).
  pose proof (stop_does_not_change_exit_handling Null
                (new_WorkerConnection "/ext/dist/worker.js")) as (_ & _ & _ & _ & _ & Hn).
  split; [ apply H0; reflexivity | apply Hn; discriminate ].
Defined.

End WorkerProofs.

(** * Properties of the connection manager *)
Module ConnectionManagerProofs.
Import ConnectionManager.

Lemma fresh_process_wf : pool_wf fresh_process.
Proof. intros key c H. simpl in H. rewrite lookup_empty in H. discriminate. Qed.

(** ** The resolved list *)

Lemma find_named_duckdb_none (l : list ConnectionConfig) :
  (∀ c, c ∈ l → name c ≠ "duckdb") → List.find named_duckdb l = None.
Proof.
  induction l as [| c l IH]; intros Hno; [ reflexivity | ].
  simpl. unfold named_duckdb at 1.
  destruct (String.eqb_spec (name c) "duckdb") as [Heq | Hne].
  - exfalso. apply (Hno c); [ left | exact Heq ].
  - apply IH. intros c' Hin. apply Hno. right. exact Hin.
Qed.

Lemma filter_named_duckdb_nil (l : list ConnectionConfig) :
  (∀ c, c ∈ l → name c ≠ "duckdb") → List.filter named_duckdb l = [].
Proof.
  induction l as [| c l IH]; intros Hno; [ reflexivity | ].
  simpl. unfold named_duckdb at 1.
  destruct (String.eqb_spec (name c) "duckdb") as [Heq | Hne].
  - exfalso. apply (Hno c); [ left | exact Heq ].
  - apply IH. intros c' Hin. apply Hno. right. exact Hin.
Qed.

Lemma resolved_configs_nonempty (c : ConnectionConfig) (l : list ConnectionConfig) :
  resolved_configs (c :: l)
  = match List.find named_duckdb (c :: l) with
    | Some _ => c :: l
    | None => (c :: l) ++ [default_duckdb]
    end.
Proof. reflexivity. Qed.

(** C5.  For the empty list the resolved list is the synthesized default
    BigQuery entry followed by the synthesized non-default ["duckdb"]
    entry.  For a list without an entry named ["duckdb"], the resolved list
    is that list (for the empty list: the synthesized BigQuery entry), in
    its order, with the one synthesized non-default ["duckdb"] entry
    appended at the end, and it holds exactly one entry named
    ["duckdb"]. *)
Theorem resolved_configs_synthesis :
  resolved_configs [] = [default_bigquery; default_duckdb] ∧
  (name default_bigquery = "bigquery" ∧ backend default_bigquery = BigQuery ∧
   isDefault default_bigquery = Some true) ∧
  (name default_duckdb = "duckdb" ∧ backend default_duckdb = DuckDB ∧
   isDefault default_duckdb = Some false) ∧
  ∀ l : list ConnectionConfig,
    (∀ c, c ∈ l → name c ≠ "duckdb") →
    (l ≠ [] → resolved_configs l = l ++ [default_duckdb]) ∧
    List.filter named_duckdb (resolved_configs l) = [default_duckdb].
Proof.
  split; [ reflexivity | ].
  split; [ repeat split | ].
  split; [ repeat split | ].
  intros l Hno.
  destruct l as [| c l].
  - split; [ congruence | reflexivity ].
  - rewrite resolved_configs_nonempty.
    rewrite (find_named_duckdb_none _ Hno).
    split; [ reflexivity | ].
    rewrite List.filter_app, (filter_named_duckdb_nil _ Hno). reflexivity.
Qed.

Lemma resolved_configs_synthesis_witness :
  resolved_configs [sample_a; sample_b] = [sample_a; sample_b; default_duckdb].
Proof.
  destruct resolved_configs_synthesis as (_ & _ & _ & H).
  destruct (H [sample_a; sample_b]) as [Happ _].
  - intros c Hin. apply list_elem_of_In in Hin. simpl in Hin.
    destruct Hin as [<- | [<- | []]]; discriminate.
  - apply Happ. discriminate.
Defined.

(** ** The default entry of the configuration map *)

Lemma add_config_default (m : gmap (option string) ConnectionConfig)
    (config : ConnectionConfig) :
  add_config m config !! DEFAULT_CONFIG
  = if is_default config then Some config else m !! DEFAULT_CONFIG.
Proof.
  unfold add_config, DEFAULT_CONFIG, is_default.
  rewrite lookup_insert_ne by discriminate.
  destruct (truthy_bool (isDefault config)); [ apply lookup_insert_eq | reflexivity ].
Qed.

Lemma fold_add_config_default (l : list ConnectionConfig)
    (m : gmap (option string) ConnectionConfig) :
  fold_left add_config l m !! DEFAULT_CONFIG
  = match last_default l with
    | Some d => Some d
    | None => m !! DEFAULT_CONFIG
    end.
Proof.
  unfold last_default.
  induction l as [| c l IH] using rev_ind; [ reflexivity | ].
  rewrite fold_left_app, rev_app_distr. simpl.
  rewrite add_config_default.
  destruct (is_default c); [ reflexivity | exact IH ].
Qed.

Lemma last_default_resolved (c : ConnectionConfig) (l : list ConnectionConfig) :
  last_default (resolved_configs (c :: l)) = last_default (c :: l).
Proof.
  rewrite resolved_configs_nonempty.
  destruct (List.find named_duckdb (c :: l)); [ reflexivity | ].
  unfold last_default. rewrite rev_app_distr. reflexivity.
Qed.

Section WithBuild.

Variable isDuckDBAvailable : bool.

#[local] Abbreviation getConnection := (getConnectionForConfig isDuckDBAvailable).
#[local] Abbreviation after_calls := (ConnectionManager.after_calls isDuckDBAvailable).
#[local] Abbreviation constructible := (ConnectionManager.constructible isDuckDBAvailable).

(** ** [getConnectionForConfig], case by case *)

Lemma getConnection_pooled (cfg : ConnectionConfig) (opts : ConfigOptions)
    (p : Process) (c : Connection) :
  pooling opts = true →
  ConnectionPool p !! name cfg = Some c →
  getConnection cfg opts p = (Resolved (Some c), p).
Proof.
  unfold pooling. intros Hpool Hin.
  unfold getConnectionForConfig. rewrite Hpool, Hin. reflexivity.
Qed.

Lemma pool_miss_lookup (cfg : ConnectionConfig) (opts : ConfigOptions) (p : Process) :
  pool_miss cfg opts p →
  (if truthy_bool (read (opt_usePool opts))
   then ConnectionPool p !! name cfg else None) = None.
Proof.
  unfold pool_miss, pooling. intros Hmiss.
  destruct (truthy_bool (read (opt_usePool opts))); [ apply Hmiss | ]; reflexivity.
Qed.

Lemma pool_miss_inherited (cfg : ConnectionConfig) (opts : ConfigOptions) (p : Process) :
  pool_miss cfg opts p →
  truthy_bool (read (opt_usePool opts)) && inherited_name (name cfg) = false.
Proof.
  unfold pool_miss, pooling. intros Hmiss.
  destruct (truthy_bool (read (opt_usePool opts))); [ apply Hmiss | ]; reflexivity.
Qed.

(** A pooled call for a name that the pool does not hold itself, but that
    names a member of [Object.prototype], resolves to that member: nothing
    is constructed and nothing is stored, whatever the backend. *)
Lemma getConnection_inherited (cfg : ConnectionConfig) (opts : ConfigOptions)
    (p : Process) :
  pooling opts = true →
  ConnectionPool p !! name cfg = None →
  inherited_name (name cfg) = true →
  getConnection cfg opts p = (Inherited (name cfg), p).
Proof.
  unfold pooling. intros Hpool Hnone Hin.
  unfold getConnectionForConfig. rewrite Hpool, Hnone, Hin. reflexivity.
Qed.

Lemma getConnection_other (cfg : ConnectionConfig) (opts : ConfigOptions)
    (p : Process) (tag : string) :
  backend cfg = OtherBackend tag →
  pool_miss cfg opts p →
  getConnection cfg opts p = (Resolved None, p).
Proof.
  intros Hb Hmiss. unfold getConnectionForConfig.
  rewrite (pool_miss_lookup _ _ _ Hmiss), (pool_miss_inherited _ _ _ Hmiss), Hb.
  reflexivity.
Qed.

Lemma getConnection_bigquery (cfg : ConnectionConfig) (opts : ConfigOptions)
    (p : Process) :
  backend cfg = BigQuery →
  pool_miss cfg opts p →
  getConnection cfg opts p
  = let c := {| object_id := allocated p;
                built := BigQueryConnection (name cfg) (opt_rowLimit opts)
                           (projectName cfg) (serviceAccountKeyPath cfg)
                           (location cfg) |} in
    (Resolved (Some c),
     pool_store (read (opt_usePool opts)) (name cfg) c
       {| ConnectionPool := ConnectionPool p; allocated := S (allocated p) |}).
Proof.
  intros Hb Hmiss. unfold getConnectionForConfig.
  rewrite (pool_miss_lookup _ _ _ Hmiss), (pool_miss_inherited _ _ _ Hmiss), Hb.
  reflexivity.
Qed.

Lemma getConnection_postgres (cfg : ConnectionConfig) (opts : ConfigOptions)
    (p : Process) :
  backend cfg = Postgres →
  pool_miss cfg opts p →
  getConnection cfg opts p
  = let c := {| object_id := allocated p;
                built := PostgresConnection (name cfg) (opt_rowLimit opts) cfg |} in
    (Resolved (Some c),
     pool_store (read (opt_usePool opts)) (name cfg) c
       {| ConnectionPool := ConnectionPool p; allocated := S (allocated p) |}).
Proof.
  intros Hb Hmiss. unfold getConnectionForConfig.
  rewrite (pool_miss_lookup _ _ _ Hmiss), (pool_miss_inherited _ _ _ Hmiss), Hb.
  reflexivity.
Qed.

Lemma getConnection_duckdb (cfg : ConnectionConfig) (opts : ConfigOptions)
    (p : Process) :
  backend cfg = DuckDB →
  pool_miss cfg opts p →
  getConnection cfg opts p
  = if isDuckDBAvailable
    then (Resolved (Some {| object_id := allocated p;
                            built := DuckDBConnection (name cfg) ":memory:"
                                       (or_default (workingDirectory cfg)
                                          (opt_workingDirectory opts)) |}),
          {| ConnectionPool := ConnectionPool p; allocated := S (allocated p) |})
    else (Rejected (JsError "DuckDB is not available."), p).
Proof.
  intros Hb Hmiss. unfold getConnectionForConfig.
  rewrite (pool_miss_lookup _ _ _ Hmiss), (pool_miss_inherited _ _ _ Hmiss), Hb.
  destruct isDuckDBAvailable; reflexivity.
Qed.

(** The pool answers with an entry of its own, or with a member of
    [Object.prototype], or not at all. *)
Lemma pool_hit_or_miss (cfg : ConnectionConfig) (opts : ConfigOptions) (p : Process) :
  (pooling opts = true ∧ ∃ c, ConnectionPool p !! name cfg = Some c) ∨
  (pooling opts = true ∧ ConnectionPool p !! name cfg = None ∧
   inherited_name (name cfg) = true) ∨
  pool_miss cfg opts p.
Proof.
  unfold pool_miss. destruct (pooling opts); [ | right; right; discriminate ].
  destruct (ConnectionPool p !! name cfg) as [c |] eqn:Hc.
  - left. split; [ reflexivity | exists c; reflexivity ].
  - destruct (inherited_name (name cfg)) eqn:Hin.
    + right. left. split; [ reflexivity | split; reflexivity ].
    + right. right. intros _. split; reflexivity.
Qed.

(** ** What a call does to the pool and to the allocation counter *)

Lemma pool_store_lookup (u : option bool) (key key' : string) (c c' : Connection)
    (p : Process) :
  ConnectionPool p !! key' = Some c' →
  (truthy_bool u = true → ConnectionPool p !! key = None) →
  ConnectionPool (pool_store u key c p) !! key' = Some c'.
Proof.
  intros Hin Hmiss. unfold pool_store.
  destruct (truthy_bool u); [ | exact Hin ].
  simpl. rewrite lookup_insert_ne; [ exact Hin | ].
  intros ->. rewrite Hmiss in Hin; [ discriminate | reflexivity ].
Qed.

Lemma pool_store_allocated (u : option bool) (key : string) (c : Connection)
    (p : Process) :
  allocated (pool_store u key c p) = allocated p.
Proof. unfold pool_store. destruct (truthy_bool u); reflexivity. Qed.

(** A call never replaces or removes a pool entry. *)
Lemma getConnection_pool_kept (cfg : ConnectionConfig) (opts : ConfigOptions)
    (p : Process) (key : string) (c : Connection) :
  ConnectionPool p !! key = Some c →
  ConnectionPool (getConnection cfg opts p).2 !! key = Some c.
Proof.
  intros Hin.
  destruct (pool_hit_or_miss cfg opts p)
    as [[Hpool [c0 Hc0]] | [[Hpool [Hnone Hinh]] | Hmiss]].
  - rewrite (getConnection_pooled _ _ _ _ Hpool Hc0). exact Hin.
  - rewrite (getConnection_inherited _ _ _ Hpool Hnone Hinh). exact Hin.
  - destruct (backend cfg) as [ | | | tag] eqn:Hb.
    + rewrite (getConnection_bigquery _ _ _ Hb Hmiss). simpl.
      apply pool_store_lookup; [ exact Hin | intros H; exact (proj1 (Hmiss H)) ].
    + rewrite (getConnection_postgres _ _ _ Hb Hmiss). simpl.
      apply pool_store_lookup; [ exact Hin | intros H; exact (proj1 (Hmiss H)) ].
    + rewrite (getConnection_duckdb _ _ _ Hb Hmiss).
      destruct isDuckDBAvailable; exact Hin.
    + rewrite (getConnection_other _ _ _ _ Hb Hmiss). exact Hin.
Qed.

Lemma getConnection_allocated (cfg : ConnectionConfig) (opts : ConfigOptions)
    (p : Process) :
  (allocated p ≤ allocated (getConnection cfg opts p).2)%nat.
Proof.
  destruct (pool_hit_or_miss cfg opts p)
    as [[Hpool [c0 Hc0]] | [[Hpool [Hnone Hinh]] | Hmiss]].
  - rewrite (getConnection_pooled _ _ _ _ Hpool Hc0). reflexivity.
  - rewrite (getConnection_inherited _ _ _ Hpool Hnone Hinh). reflexivity.
  - destruct (backend cfg) as [ | | | tag] eqn:Hb.
    + rewrite (getConnection_bigquery _ _ _ Hb Hmiss). simpl.
      rewrite pool_store_allocated. simpl. lia.
    + rewrite (getConnection_postgres _ _ _ Hb Hmiss). simpl.
      rewrite pool_store_allocated. simpl. lia.
    + rewrite (getConnection_duckdb _ _ _ Hb Hmiss).
      destruct isDuckDBAvailable; simpl; lia.
    + rewrite (getConnection_other _ _ _ _ Hb Hmiss). reflexivity.
Qed.

Lemma construct_store_wf (u : option bool) (key : string) (args : ConnectionArgs)
    (p : Process) :
  pool_wf p →
  pool_wf (pool_store u key {| object_id := allocated p; built := args |}
             {| ConnectionPool := ConnectionPool p; allocated := S (allocated p) |}).
Proof.
  intros Hwf key' c'. unfold pool_store.
  destruct (truthy_bool u); simpl.
  - rewrite lookup_insert. case_decide as Hk.
    + intros [= <-]. simpl. lia.
    + intros Hin. specialize (Hwf _ _ Hin). lia.
  - intros Hin. specialize (Hwf _ _ Hin). lia.
Qed.

Lemma getConnection_wf (cfg : ConnectionConfig) (opts : ConfigOptions) (p : Process) :
  pool_wf p → pool_wf (getConnection cfg opts p).2.
Proof.
  intros Hwf.
  destruct (pool_hit_or_miss cfg opts p)
    as [[Hpool [c0 Hc0]] | [[Hpool [Hnone Hinh]] | Hmiss]].
  - rewrite (getConnection_pooled _ _ _ _ Hpool Hc0). exact Hwf.
  - rewrite (getConnection_inherited _ _ _ Hpool Hnone Hinh). exact Hwf.
  - destruct (backend cfg) as [ | | | tag] eqn:Hb.
    + rewrite (getConnection_bigquery _ _ _ Hb Hmiss). simpl.
      apply construct_store_wf, Hwf.
    + rewrite (getConnection_postgres _ _ _ Hb Hmiss). simpl.
      apply construct_store_wf, Hwf.
    + rewrite (getConnection_duckdb _ _ _ Hb Hmiss).
      destruct isDuckDBAvailable; [ | exact Hwf ].
      intros key c Hin. simpl in *. specialize (Hwf _ _ Hin). lia.
    + rewrite (getConnection_other _ _ _ _ Hb Hmiss). exact Hwf.
Qed.

(** The object a call returns has been constructed by then. *)
Lemma getConnection_result_allocated (cfg : ConnectionConfig) (opts : ConfigOptions)
    (p : Process) (c : Connection) :
  pool_wf p →
  (getConnection cfg opts p).1 = Resolved (Some c) →
  (object_id c < allocated (getConnection cfg opts p).2)%nat.
Proof.
  intros Hwf.
  destruct (pool_hit_or_miss cfg opts p)
    as [[Hpool [c0 Hc0]] | [[Hpool [Hnone Hinh]] | Hmiss]].
  - rewrite (getConnection_pooled _ _ _ _ Hpool Hc0). simpl.
    intros [= <-]. exact (Hwf _ _ Hc0).
  - rewrite (getConnection_inherited _ _ _ Hpool Hnone Hinh). discriminate.
  - destruct (backend cfg) as [ | | | tag] eqn:Hb.
    + rewrite (getConnection_bigquery _ _ _ Hb Hmiss). simpl.
      rewrite pool_store_allocated. intros [= <-]. simpl. lia.
    + rewrite (getConnection_postgres _ _ _ Hb Hmiss). simpl.
      rewrite pool_store_allocated. intros [= <-]. simpl. lia.
    + rewrite (getConnection_duckdb _ _ _ Hb Hmiss).
      destruct isDuckDBAvailable; simpl; [ | discriminate ].
      intros [= <-]. simpl. lia.
    + rewrite (getConnection_other _ _ _ _ Hb Hmiss). discriminate.
Qed.

(** ** Sequences of calls *)

Lemma after_calls_pool_kept (calls : list (ConnectionConfig * ConfigOptions))
    (p : Process) (key : string) (c : Connection) :
  ConnectionPool p !! key = Some c →
  ConnectionPool (after_calls calls p) !! key = Some c.
Proof.
  revert p. induction calls as [| call calls IH]; intros p Hin; [ exact Hin | ].
  simpl. apply IH, getConnection_pool_kept, Hin.
Qed.

Lemma after_calls_allocated (calls : list (ConnectionConfig * ConfigOptions))
    (p : Process) :
  (allocated p ≤ allocated (after_calls calls p))%nat.
Proof.
  revert p. induction calls as [| call calls IH]; intros p; [ reflexivity | ].
  simpl. etransitivity; [ apply (getConnection_allocated call.1 call.2) | apply IH ].
Qed.

Lemma after_calls_wf (calls : list (ConnectionConfig * ConfigOptions)) (p : Process) :
  pool_wf p → pool_wf (after_calls calls p).
Proof.
  revert p. induction calls as [| call calls IH]; intros p Hwf; [ exact Hwf | ].
  simpl. apply IH, getConnection_wf, Hwf.
Qed.

(** The first pooled call for a BigQuery or Postgres configuration leaves
    the object it returns in the pool. *)
Lemma getConnection_enters_pool (cfg : ConnectionConfig) (opts : ConfigOptions)
    (p : Process) :
  backend cfg = BigQuery ∨ backend cfg = Postgres →
  pooling opts = true →
  inherited_name (name cfg) = false →
  ∃ c, (getConnection cfg opts p).1 = Resolved (Some c) ∧
       ConnectionPool (getConnection cfg opts p).2 !! name cfg = Some c.
Proof.
  intros Hb Hpool Hord.
  destruct (pool_hit_or_miss cfg opts p)
    as [[_ [c0 Hc0]] | [[_ [_ Hinh]] | Hmiss]].
  - exists c0. rewrite (getConnection_pooled _ _ _ _ Hpool Hc0). split; [ reflexivity | exact Hc0 ].
  - rewrite Hord in Hinh. discriminate.
  - unfold pooling in Hpool. destruct Hb as [Hb | Hb].
    + rewrite (getConnection_bigquery _ _ _ Hb Hmiss). simpl.
      eexists. split; [ reflexivity | ].
      unfold pool_store. rewrite Hpool. simpl. apply lookup_insert_eq.
    + rewrite (getConnection_postgres _ _ _ Hb Hmiss). simpl.
      eexists. split; [ reflexivity | ].
      unfold pool_store. rewrite Hpool. simpl. apply lookup_insert_eq.
Qed.

(** On an empty pool a call constructs a new object. *)
Lemma getConnection_empty_pool (cfg : ConnectionConfig) (opts : ConfigOptions)
    (n : nat) :
  constructible cfg →
  (pooling opts = true → inherited_name (name cfg) = false) →
  ∃ c, (getConnection cfg opts {| ConnectionPool := ∅; allocated := n |}).1
       = Resolved (Some c) ∧ object_id c = n.
Proof.
  intros Hc Hord.
  assert (Hmiss : pool_miss cfg opts {| ConnectionPool := ∅; allocated := n |}).
  { intros Hpool. split; [ apply lookup_empty | exact (Hord Hpool) ]. }
  destruct Hc as [Hb | [Hb | [Hb Hav]]].
  - rewrite (getConnection_bigquery _ _ _ Hb Hmiss). simpl. eexists. split; reflexivity.
  - rewrite (getConnection_postgres _ _ _ Hb Hmiss). simpl. eexists. split; reflexivity.
  - rewrite (getConnection_duckdb _ _ _ Hb Hmiss), Hav. simpl. eexists. split; reflexivity.
Qed.

(** ** Lookup objects *)

Variable path_dirname : string → string.

(** A lookup object answers a repeated lookup as it answered the first. *)
Lemma lookupConnection_again (connectionName : option string)
    (cfgs : gmap (option string) ConnectionConfig)
    (this this1 : DynamicConnectionLookup) (p p1 : Process)
    (promise : Outcome (option Connection)) :
  lookupConnection isDuckDBAvailable connectionName cfgs this p = (promise, this1, p1) →
  lookupConnection isDuckDBAvailable connectionName cfgs this1 p1 = (promise, this1, p1).
Proof.
  unfold lookupConnection.
  destruct (connections this !! connectionKey connectionName) as [cached |] eqn:Hc.
  - intros [= <- <- <-]. rewrite Hc. reflexivity.
  - destruct (inherited_member (connectionKey connectionName)) as [member |] eqn:Hm.
    { intros [= <- <- <-]. rewrite Hc. reflexivity. }
    destruct (cfgs !! connectionKey connectionName) as [cfg |] eqn:Hcfg.
    + destruct (getConnection cfg (pooled_options (options this)) p) as [o q].
      intros [= <- <- <-]. simpl. rewrite lookup_insert_eq. reflexivity.
    + intros [= <- <- <-]. rewrite Hc. reflexivity.
Qed.

Lemma getConnectionLookup_registered (url : URL) (s : State) :
  connectionLookups (getConnectionLookup path_dirname url s).2
    !! path_dirname (pathname url)
  = Some (getConnectionLookup path_dirname url s).1.
Proof.
  unfold getConnectionLookup.
  destruct (connectionLookups s !! path_dirname (pathname url)) as [r |] eqn:Hr; simpl.
  - exact Hr.
  - apply lookup_insert_eq.
Qed.

(** Asking the manager for the lookup object of the same document and
    looking the same name up again gives the same promise and changes
    nothing, whatever the backend. *)
Lemma lookup_object_caches_promise (url : URL) (connectionName : option string)
    (s s2 : State) (promise : Outcome (option Connection)) :
  lookupConnection_at isDuckDBAvailable (getConnectionLookup path_dirname url s).1
    connectionName (getConnectionLookup path_dirname url s).2 = Some (promise, s2) →
  getConnectionLookup path_dirname url s2
    = ((getConnectionLookup path_dirname url s).1, s2) ∧
  lookupConnection_at isDuckDBAvailable (getConnectionLookup path_dirname url s).1
    connectionName s2 = Some (promise, s2).
Proof.
  pose proof (getConnectionLookup_registered url s) as Hreg.
  destruct (getConnectionLookup path_dirname url s) as [r s1]. simpl in *.
  unfold lookupConnection_at.
  destruct (heap s1 !! r) as [this |] eqn:Hthis; [ | discriminate ].
  destruct (lookupConnection isDuckDBAvailable connectionName (configs s1) this
              (process s1)) as [[o this1] p1] eqn:Hlook.
  intros [= <- <-]. simpl. split.
  - unfold getConnectionLookup. simpl. rewrite Hreg. reflexivity.
  - rewrite lookup_insert_eq.
    rewrite (lookupConnection_again _ _ _ _ _ _ _ Hlook).
    rewrite insert_insert_eq. reflexivity.
Qed.

(** ** The claims *)


(** C2, amended.  The entry stored under [DEFAULT_CONFIG] is the last entry
    of the resolved list whose default flag is set (for a non-empty
    configuration list: the last such entry of that list), and a lookup
    that omits the name, on a lookup object that has not resolved the
    default yet, resolves to what [getConnectionForConfig] gives for that
    entry with pooling enabled. *)
Theorem default_connection_is_last_default (l : list ConnectionConfig)
    (m : gmap (option string) ConnectionConfig) (d : ConnectionConfig) :
  last_default (resolved_configs l) = Some d →
  buildConfigMap l m !! DEFAULT_CONFIG = Some d ∧
  (l ≠ [] → last_default l = Some d) ∧
  ∀ (this : DynamicConnectionLookup) (p : Process),
    connections this !! DEFAULT_CONFIG = None →
    lookupConnection isDuckDBAvailable None (buildConfigMap l m) this p
    = ((getConnection d (pooled_options (options this)) p).1,
       {| connections :=
            <[DEFAULT_CONFIG := (getConnection d (pooled_options (options this)) p).1]>
              (connections this);
          options := options this |},
       (getConnection d (pooled_options (options this)) p).2).
Proof.
  intros Hlast.
  assert (Hd : buildConfigMap l m !! DEFAULT_CONFIG = Some d).
  { unfold buildConfigMap. rewrite fold_add_config_default, Hlast. reflexivity. }
  split; [ exact Hd | ].
  split.
  - intros Hne. destruct l as [| c l]; [ congruence | ].
    rewrite <- last_default_resolved. exact Hlast.
  - intros this p Hnone. unfold lookupConnection.
    change (connectionKey None) with DEFAULT_CONFIG.
    rewrite Hnone, Hd.
    destruct (getConnection d (pooled_options (options this)) p) as [promise p1].
    reflexivity.
Qed.

(** C3, amended.  Names that are not names of members of
    [Object.prototype].  BigQuery and Postgres: the object a pooled lookup
    returns is the one every later pooled lookup for that name returns,
    whatever calls come in between, until [setConnectionsConfig] empties
    the pool; a lookup after that, for a constructible configuration,
    constructs an object distinct from it.  DuckDB, where it is available:
    a lookup never enters the pool, and two successive lookups that miss
    the pool construct two distinct objects. *)
Theorem pooled_connection_reused_until_reset :
  (∀ (cfg : ConnectionConfig) (opts : ConfigOptions) (p : Process),
     pool_wf p →
     backend cfg = BigQuery ∨ backend cfg = Postgres →
     pooling opts = true →
     inherited_name (name cfg) = false →
     ∃ c, (getConnection cfg opts p).1 = Resolved (Some c) ∧
       (∀ calls cfg' opts',
          name cfg' = name cfg → pooling opts' = true →
          getConnection cfg' opts' (after_calls calls (getConnection cfg opts p).2)
          = (Resolved (Some c), after_calls calls (getConnection cfg opts p).2)) ∧
       (∀ calls (s : State) l cfg' opts',
          process s = after_calls calls (getConnection cfg opts p).2 →
          constructible cfg' →
          (pooling opts' = true → inherited_name (name cfg') = false) →
          ConnectionPool (process (setConnectionsConfig l s)) = ∅ ∧
          ∃ c', (getConnection cfg' opts' (process (setConnectionsConfig l s))).1
                = Resolved (Some c') ∧
                object_id c' ≠ object_id c)) ∧
  (∀ (cfg : ConnectionConfig) (opts : ConfigOptions) (p : Process),
     backend cfg = DuckDB → isDuckDBAvailable = true →
     (pooling opts = true →
      ConnectionPool p !! name cfg = None ∧ inherited_name (name cfg) = false) →
     ConnectionPool (getConnection cfg opts p).2 = ConnectionPool p ∧
     ∃ c1 c2,
       (getConnection cfg opts p).1 = Resolved (Some c1) ∧
       (getConnection cfg opts (getConnection cfg opts p).2).1 = Resolved (Some c2) ∧
       object_id c1 = allocated p ∧ object_id c2 = S (allocated p)).
Proof.
  split.
  - intros cfg opts p Hwf Hb Hpool Hord.
    destruct (getConnection_enters_pool cfg opts p Hb Hpool Hord) as (c & Hres & Hin).
    exists c. split; [ exact Hres | ]. split.
    + intros calls cfg' opts' Hname Hpool'.
      apply getConnection_pooled; [ exact Hpool' | ].
      rewrite Hname. apply after_calls_pool_kept, Hin.
    + intros calls s l cfg' opts' Hs Hc Hord'.
      split; [ reflexivity | ].
      simpl.
      destruct (getConnection_empty_pool cfg' opts' (allocated (process s)) Hc Hord')
        as (c' & Hres' & Hid).
      exists c'. split; [ exact Hres' | ].
      pose proof (getConnection_result_allocated cfg opts p c Hwf Hres) as Hlt.
      pose proof (after_calls_allocated calls (getConnection cfg opts p).2) as Hle.
      rewrite Hid, Hs. lia.
  - intros cfg opts p Hb Hav Hmiss.
    assert (Hmiss' : pool_miss cfg opts
              {| ConnectionPool := ConnectionPool p; allocated := S (allocated p) |})
      by exact Hmiss.
    pose proof (getConnection_duckdb cfg opts p Hb Hmiss) as E1.
    pose proof (getConnection_duckdb cfg opts _ Hb Hmiss') as E2.
    rewrite Hav in E1, E2 |- *. rewrite E1. simpl. rewrite E2. simpl.
    split; [ reflexivity | ].
    eexists. eexists. repeat split; reflexivity.
Qed.

End WithBuild.

(** ** Concrete runs *)


(** C2 as stated fails: of two entries flagged as default, the second one
    becomes the default target, and a lookup without a name resolves to the
    connection constructed from it. *)
Lemma first_default_is_not_the_target :
  List.find is_default [sample_a; sample_b] = Some sample_a ∧
  configs (new_ConnectionManager [sample_a; sample_b] fresh_process) !! DEFAULT_CONFIG
    = Some sample_b ∧
  (lookupConnection true None
     (configs (new_ConnectionManager [sample_a; sample_b] fresh_process))
     sample_lookup fresh_process).1.1
    = Resolved (Some {| object_id := 0;
                        built := PostgresConnection "b" None sample_b |}) ∧
  sample_b ≠ sample_a.
Proof.
  split; [ reflexivity | ].
  split; [ vm_compute; reflexivity | ].
  split; [ vm_compute; reflexivity | discriminate ].
Qed.

Lemma default_connection_is_last_default_witness :
  buildConfigMap [sample_a; sample_b] ∅ !! DEFAULT_CONFIG = Some sample_b ∧
  last_default [sample_a; sample_b] = Some sample_b.
Proof.
  destruct (default_connection_is_last_default true [sample_a; sample_b] ∅ sample_b)
    as (Hd & Hl & _); [ reflexivity | ].
  split; [ exact Hd | apply Hl; discriminate ].
Defined.

(** C3 as stated fails for DuckDB: two successive lookups with pooling
    enabled return two different objects, and the pool stays empty. *)
Lemma duckdb_lookups_are_not_pooled :
  duckdb_first.1
    = Resolved (Some {| object_id := 0;
                        built := DuckDBConnection "duckdb" ":memory:" "/home/me" |}) ∧
  duckdb_second.1
    = Resolved (Some {| object_id := 1;
                        built := DuckDBConnection "duckdb" ":memory:" "/home/me" |}) ∧
  duckdb_first.1 ≠ duckdb_second.1 ∧
  ConnectionPool duckdb_second.2 = ∅.
Proof.
  split; [ reflexivity | ].
  split; [ reflexivity | ].
  split; [ discriminate | reflexivity ].
Qed.

(** Two pooled lookups of [sample_a] give one object; after
    [setConnectionsConfig] the pool is empty and a third lookup gives
    another object.  Two pooled lookups of the DuckDB configuration give
    two objects. *)
Lemma pooled_connection_reused_until_reset_witness :
  (∃ c, (getConnectionForConfig true sample_a sample_pooled fresh_process).1
        = Resolved (Some c) ∧
        (getConnectionForConfig true sample_a sample_pooled
           (getConnectionForConfig true sample_a sample_pooled fresh_process).2).1
        = Resolved (Some c) ∧
        ConnectionPool (process (setConnectionsConfig [sample_a] pooled_state)) = ∅ ∧
        ∃ c', (getConnectionForConfig true sample_a sample_pooled
                 (process (setConnectionsConfig [sample_a] pooled_state))).1
              = Resolved (Some c') ∧
              object_id c' ≠ object_id c) ∧
  (∃ c1 c2, duckdb_first.1 = Resolved (Some c1) ∧ duckdb_second.1 = Resolved (Some c2) ∧
            object_id c1 = 0%nat ∧ object_id c2 = 1%nat).
Proof.
  destruct (pooled_connection_reused_until_reset true) as [Hpool Hduck].
  split.
  - destruct (Hpool sample_a sample_pooled fresh_process)
      as (c & Hres & Hsame & Hreset);
      [ exact fresh_process_wf | left; reflexivity | reflexivity | reflexivity | ].
    exists c. split; [ exact Hres | ].
    split.
    + specialize (Hsame [] sample_a sample_pooled eq_refl eq_refl).
      unfold after_calls in Hsame. cbn [fold_left] in Hsame.
      rewrite Hsame. reflexivity.
    + apply (Hreset [] pooled_state [sample_a] sample_a sample_pooled).
      * reflexivity.
      * left. reflexivity.
      * intros _. reflexivity.
  - destruct (Hduck default_duckdb sample_pooled fresh_process)
      as (_ & c1 & c2 & H1 & H2 & Hid1 & Hid2);
      [ reflexivity | reflexivity | intros _; split; reflexivity | ].
    exists c1, c2. repeat split; assumption.
Defined.

End ConnectionManagerProofs.

(** * Properties of the materializers *)
Module CreateRunnableProofs.
Import CreateRunnable.

Section WithRuntime.

Context {Runtime : Type}.
Variable new_URL : string → option URL.

#[local] Abbreviation parse_all := (CreateRunnable.parse_all new_URL).

Lemma normalize_refresh (refresh : RefreshSchemaCache) (now : Z) :
  (if truthy_refresh refresh && not_number refresh then Timestamp now else refresh)
  = normalized refresh now.
Proof. destruct refresh as [| [|] | n]; simpl; try reflexivity. rewrite andb_false_r. reflexivity. Qed.

Lemma options_used_extended (options : LoadOptions) (urls : list URL)
    (mm : ModelMaterializer Runtime) :
  options_used (extended options mm urls)
  = options_used mm ++ List.map (λ _, options) urls.
Proof.
  revert mm. induction urls as [| url urls IH]; intros mm; simpl.
  - rewrite app_nil_r. reflexivity.
  - unfold extended in *. simpl. rewrite IH. simpl. rewrite <- app_assoc. reflexivity.
Qed.

(** The loop, in closed form, when every Malloy cell's URI parses. *)
Lemma load_cells_parsed (runtime : Runtime) (base : URL)
    (refresh : RefreshSchemaCache) (cellList : list Cell) (urls : list URL)
    (mm : option (ModelMaterializer Runtime)) :
  parse_all (malloy_cells cellList) = Some urls →
  load_cells new_URL runtime base refresh cellList mm
  = Resolved
      match mm with
      | Some m => Some (extended {| importBaseURL := Some base;
                                    refreshSchemaCache := refresh |} m urls)
      | None => accumulated runtime {| importBaseURL := Some base;
                                       refreshSchemaCache := refresh |} urls
      end.
Proof.
  revert urls mm. induction cellList as [| cell rest IH]; intros urls mm Hparse.
  - injection Hparse as <-. destruct mm; reflexivity.
  - unfold malloy_cells in Hparse. simpl in Hparse. simpl.
    fold (is_malloy cell). destruct (is_malloy cell).
    + simpl in Hparse. destruct (new_URL (uri cell)) as [url |]; [ | discriminate ].
      fold (malloy_cells rest) in Hparse.
      destruct (parse_all (malloy_cells rest)) as [urls' |] eqn:Hrest; [ | discriminate ].
      injection Hparse as <-.
      rewrite (IH urls' _ eq_refl). destruct mm; reflexivity.
    + apply IH. exact Hparse.
Qed.

(** The loop fails as soon as a Malloy cell's URI does not parse. *)
Lemma load_cells_unparsed (runtime : Runtime) (base : URL)
    (refresh : RefreshSchemaCache) (cellList : list Cell)
    (mm : option (ModelMaterializer Runtime)) :
  parse_all (malloy_cells cellList) = None →
  load_cells new_URL runtime base refresh cellList mm = Rejected invalid_URL.
Proof.
  revert mm. induction cellList as [| cell rest IH]; intros mm Hparse.
  - discriminate.
  - unfold malloy_cells in Hparse. simpl in Hparse. simpl.
    fold (is_malloy cell). destruct (is_malloy cell).
    + simpl in Hparse. destruct (new_URL (uri cell)) as [url |]; [ | reflexivity ].
      fold (malloy_cells rest) in Hparse.
      destruct (parse_all (malloy_cells rest)) as [urls' |] eqn:Hrest; [ discriminate | ].
      apply IH. reflexivity.
    + apply IH. exact Hparse.
Qed.

(** [createModelMaterializer] on cell data, in closed form. *)
Lemma createModelMaterializer_cells (documentUri : string) (runtime : Runtime)
    (cellData : CellData) (refresh : RefreshSchemaCache) (now : Z)
    (documentURL base : URL) (urls : list URL) :
  new_URL documentUri = Some documentURL →
  new_URL (baseUri cellData) = Some base →
  parse_all (malloy_cells (cells cellData)) = Some urls →
  createModelMaterializer new_URL documentUri runtime (Some cellData) refresh now
  = Resolved (accumulated runtime
                {| importBaseURL := Some base;
                   refreshSchemaCache := normalized refresh now |} urls).
Proof.
  intros Hdoc Hbase Hparse. unfold createModelMaterializer.
  rewrite Hdoc, Hbase, normalize_refresh.
  apply (load_cells_parsed runtime base _ _ urls None Hparse).
Qed.

(** The only error [createModelMaterializer] raises is the URL
    constructor's. *)
Lemma createModelMaterializer_rejected (documentUri : string) (runtime : Runtime)
    (cellData : option CellData) (refresh : RefreshSchemaCache) (now : Z)
    (e : Thrown) :
  createModelMaterializer new_URL documentUri runtime cellData refresh now = Rejected e →
  e = invalid_URL.
Proof.
  unfold createModelMaterializer.
  destruct (new_URL documentUri) as [documentURL |]; [ | congruence ].
  destruct cellData as [cellData |]; [ | discriminate ].
  destruct (new_URL (baseUri cellData)) as [base |]; [ | congruence ].
  destruct (parse_all (malloy_cells (cells cellData))) as [urls |] eqn:Hparse.
  - rewrite (load_cells_parsed _ _ _ _ urls None Hparse). discriminate.
  - rewrite (load_cells_unparsed _ _ _ _ None Hparse). congruence.
Qed.

(** The URLs [parse_all] gives are those of the cells, one by one. *)
Lemma parse_all_Forall2 (cellList : list Cell) (urls : list URL) :
  Forall (λ cell, is_malloy cell = true) cellList →
  parse_all cellList = Some urls →
  Forall2 (λ cell url, is_malloy cell = true ∧ new_URL (uri cell) = Some url)
    cellList urls.
Proof.
  revert urls. induction cellList as [| cell rest IH]; intros urls Hall Hparse;
    simpl in Hparse.
  - injection Hparse as <-. constructor.
  - destruct (new_URL (uri cell)) as [url |] eqn:Hurl; [ | discriminate ].
    destruct (CreateRunnable.parse_all new_URL rest) as [urls' |]; [ | discriminate ].
    injection Hparse as <-.
    inversion Hall as [| ? ? Hcell Htail]; subst.
    constructor; [ split; assumption | apply IH; [ exact Htail | reflexivity ] ].
Qed.

Lemma malloy_cells_Forall (cellList : list Cell) :
  Forall (λ cell, is_malloy cell = true) (malloy_cells cellList).
Proof.
  apply List.Forall_forall. intros cell Hin.
  apply List.filter_In in Hin. exact (proj2 Hin).
Qed.

(** ** The claims *)

(** C7.  With cell data, and the URIs of the document, of the base and of
    the Malloy cells accepted by the URL constructor, the result is the
    single model accumulated from the cells whose [languageId] is
    ["malloy"], in notebook order: [loadModel] on the first of them,
    [extendModel] on each of the following ones, the other cells being
    skipped; there is no model exactly when there is no such cell. *)
Theorem notebook_cells_accumulate (documentUri : string) (runtime : Runtime)
    (cellData : CellData) (refresh : RefreshSchemaCache) (now : Z)
    (documentURL base : URL) (urls : list URL) :
  new_URL documentUri = Some documentURL →
  new_URL (baseUri cellData) = Some base →
  parse_all (malloy_cells (cells cellData)) = Some urls →
  createModelMaterializer new_URL documentUri runtime (Some cellData) refresh now
  = Resolved (accumulated runtime
                {| importBaseURL := Some base;
                   refreshSchemaCache := normalized refresh now |} urls) ∧
  Forall2 (λ cell url, is_malloy cell = true ∧ new_URL (uri cell) = Some url)
    (malloy_cells (cells cellData)) urls ∧
  (createModelMaterializer new_URL documentUri runtime (Some cellData) refresh now
   = Resolved None ↔ malloy_cells (cells cellData) = []).
Proof.
  intros Hdoc Hbase Hparse.
  pose proof (createModelMaterializer_cells _ runtime _ refresh now _ _ _
                Hdoc Hbase Hparse) as Hcreate.
  pose proof (parse_all_Forall2 _ _ (malloy_cells_Forall (cells cellData)) Hparse)
    as Hurls.
  split; [ exact Hcreate | ]. split; [ exact Hurls | ].
  rewrite Hcreate.
  destruct (malloy_cells (cells cellData)) as [| cell rest];
    destruct urls as [| url urls']; inversion Hurls; subst.
  - split; reflexivity.
  - split; discriminate.
Qed.

(** C6, amended.  With cell data, every [loadModel] and [extendModel] call
    carries the normalized flag: the current timestamp for [true], and the
    flag as given for a number, for [false] and for an omitted flag.
    Without cell data the flag is handed to [loadModel] as given, [true]
    included. *)
Theorem refresh_flag_normalized_with_cells (documentUri : string) (runtime : Runtime)
    (refresh : RefreshSchemaCache) (now : Z) (documentURL : URL) :
  new_URL documentUri = Some documentURL →
  (∀ (cellData : CellData) (base : URL) (urls : list URL),
     new_URL (baseUri cellData) = Some base →
     parse_all (malloy_cells (cells cellData)) = Some urls →
     ∃ model,
       createModelMaterializer new_URL documentUri runtime (Some cellData) refresh now
       = Resolved model ∧
       ∀ mm options, model = Some mm → options ∈ options_used mm →
         refreshSchemaCache options = normalized refresh now) ∧
  normalized (Flag true) now = Timestamp now ∧
  (∀ n, normalized (Timestamp n) now = Timestamp n) ∧
  normalized Omitted now = Omitted ∧
  createModelMaterializer new_URL documentUri runtime None refresh now
  = Resolved (Some (loadModel runtime documentURL
                      {| importBaseURL := None; refreshSchemaCache := refresh |})).
Proof.
  intros Hdoc. split.
  - intros cellData base urls Hbase Hparse.
    eexists. split; [ apply (createModelMaterializer_cells _ _ _ _ _ _ _ _ Hdoc Hbase Hparse) | ].
    intros mm options Hmm Hin.
    destruct urls as [| url rest]; [ discriminate | ].
    injection Hmm as <-. rewrite options_used_extended in Hin. simpl in Hin.
    apply elem_of_cons in Hin as [-> | Hin]; [ reflexivity | ].
    apply list_elem_of_In, in_map_iff in Hin as (_ & <- & _). reflexivity.
  - split; [ reflexivity | ]. split; [ reflexivity | ]. split; [ reflexivity | ].
    unfold createModelMaterializer. rewrite Hdoc. reflexivity.
Qed.

(** C8.  With a model, each of the five type tags gives its runnable, the
    index -1 of a [file] query selecting the final query.  The error
    "Missing model definition" is raised exactly when
    [createModelMaterializer] resolves to no model, and the error
    "Internal Error: Unexpected query type" exactly when there is a model
    and the tag is none of the five; a runnable is returned exactly when
    there is a model and the tag is one of the five.  The only other
    failure is the URL constructor's, passed on as it is. *)
Theorem createRunnable_by_type (query : WorkerQuerySpec) (runtime : Runtime)
    (cellData : option CellData) (now : Z) :
  (∀ mm,
     createModelMaterializer new_URL (query_uri query) runtime cellData Omitted now
     = Resolved (Some mm) →
     (query_type query = "string" →
      createRunnable new_URL query runtime cellData now
      = Resolved (loadQuery mm (query_text query))) ∧
     (query_type query = "named" →
      createRunnable new_URL query runtime cellData now
      = Resolved (loadQueryByName mm (query_name query))) ∧
     (query_type query = "file" → query_index query = -1 →
      createRunnable new_URL query runtime cellData now
      = Resolved (loadFinalQuery mm)) ∧
     (query_type query = "file" → query_index query ≠ -1 →
      createRunnable new_URL query runtime cellData now
      = Resolved (loadQueryByIndex mm (query_index query))) ∧
     (query_type query = "named_sql" →
      createRunnable new_URL query runtime cellData now
      = Resolved (loadSQLBlockByName mm (query_name query))) ∧
     (query_type query = "unnamed_sql" →
      createRunnable new_URL query runtime cellData now
      = Resolved (loadSQLBlockByIndex mm (query_index query)))) ∧
  (createRunnable new_URL query runtime cellData now
   = Rejected (JsError "Missing model definition")
   ↔ createModelMaterializer new_URL (query_uri query) runtime cellData Omitted now
     = Resolved None) ∧
  (createRunnable new_URL query runtime cellData now
   = Rejected (JsError "Internal Error: Unexpected query type")
   ↔ (∃ mm, createModelMaterializer new_URL (query_uri query) runtime cellData Omitted now
            = Resolved (Some mm)) ∧
     recognized (query_type query) = false) ∧
  ((∃ runnable, createRunnable new_URL query runtime cellData now = Resolved runnable)
   ↔ (∃ mm, createModelMaterializer new_URL (query_uri query) runtime cellData Omitted now
            = Resolved (Some mm)) ∧
     recognized (query_type query) = true) ∧
  (∀ e,
     createModelMaterializer new_URL (query_uri query) runtime cellData Omitted now
     = Rejected e →
     e = invalid_URL ∧ createRunnable new_URL query runtime cellData now = Rejected e).
Proof.
  unfold createRunnable, recognized.
  destruct (createModelMaterializer new_URL (query_uri query) runtime cellData Omitted now)
    as [[mm |] | e] eqn:Hm.
  - split; [ | split; [ | split; [ | split ] ] ].
    + intros mm' [= <-].
      split; [ intros Ht; rewrite Ht; reflexivity | ].
      split; [ intros Ht; rewrite Ht; reflexivity | ].
      split; [ intros Ht Hi; rewrite Ht, Hi; reflexivity | ].
      split; [ intros Ht Hi; rewrite Ht; simpl;
               destruct (Z.eqb_spec (query_index query) (-1));
               [ contradiction | reflexivity ] | ].
      split; intros Ht; rewrite Ht; reflexivity.
    + repeat (destruct (String.eqb (query_type query) _));
        try destruct (query_index query =? -1); split; discriminate.
    + repeat (destruct (String.eqb (query_type query) _));
        try destruct (query_index query =? -1); simpl;
        (split;
         [ first [ discriminate
                 | intros _; split; [ exists mm; reflexivity | reflexivity ] ]
         | first [ intros [_ Hf]; discriminate Hf | intros _; reflexivity ] ]).
    + repeat (destruct (String.eqb (query_type query) _));
        try destruct (query_index query =? -1); simpl;
        (split;
         [ first [ intros [r Hr]; discriminate Hr
                 | intros _; split; [ exists mm; reflexivity | reflexivity ] ]
         | first [ intros [_ Hf]; discriminate Hf | intros _; eexists; reflexivity ] ]).
    + intros e; discriminate.
  - split; [ intros mm; discriminate | ].
    split; [ split; reflexivity | ].
    split; [ split; [ discriminate | intros [[mm Hmm] _]; discriminate Hmm ] | ].
    split; [ | intros e; discriminate ].
    split; [ intros [r Hr]; discriminate Hr | intros [[mm Hmm] _]; discriminate Hmm ].
  - pose proof (createModelMaterializer_rejected _ _ _ _ _ _ Hm) as ->.
    split; [ intros mm; discriminate | ].
    split; [ split; discriminate | ].
    split; [ split; [ discriminate | intros [[mm Hmm] _]; discriminate Hmm ] | ].
    split; [ split; [ intros [r Hr]; discriminate Hr
                    | intros [[mm Hmm] _]; discriminate Hmm ] | ].
    intros e [= <-]. split; reflexivity.
Qed.

End WithRuntime.

(** ** Concrete runs *)

Lemma notebook_cells_accumulate_witness :
  createModelMaterializer sample_new_URL "file:///nb/q.malloynb" tt
    (Some sample_cells) Omitted 1700000000000
  = Resolved (Some (extendModel
                      (loadModel tt (sample_URL "a") (sample_options Omitted))
                      (sample_URL "c") (sample_options Omitted))).
Proof.
  exact (proj1 (notebook_cells_accumulate sample_new_URL "file:///nb/q.malloynb" tt
                  sample_cells Omitted 1700000000000
                  (sample_URL "file:///nb/q.malloynb") (sample_URL "file:///nb/")
                  [sample_URL "a"; sample_URL "c"] eq_refl eq_refl eq_refl)).
Defined.

(** C6 as stated fails: without cell data the flag [true] reaches
    [loadModel] as [true], not as the current timestamp. *)
Lemma true_flag_not_normalized_without_cells :
  createModelMaterializer sample_new_URL "file:///q.malloy" tt None
    (Flag true) 1700000000000
  = Resolved (Some (loadModel tt (sample_URL "file:///q.malloy")
                      {| importBaseURL := None; refreshSchemaCache := Flag true |})) ∧
  Flag true ≠ Timestamp 1700000000000.
Proof. split; [ reflexivity | discriminate ]. Qed.

Lemma refresh_flag_normalized_with_cells_witness :
  (∃ model,
     createModelMaterializer sample_new_URL "file:///nb/q.malloynb" tt
       (Some sample_cells) (Flag true) 1700000000000 = Resolved model ∧
     ∀ mm options, model = Some mm → options ∈ options_used mm →
       refreshSchemaCache options = Timestamp 1700000000000) ∧
  createModelMaterializer sample_new_URL "file:///nb/q.malloynb" tt None
    (Timestamp 1600000000000) 1700000000000
  = Resolved (Some (loadModel tt (sample_URL "file:///nb/q.malloynb")
                      {| importBaseURL := None;
                         refreshSchemaCache := Timestamp 1600000000000 |})).
Proof.
  split.
  - destruct (refresh_flag_normalized_with_cells sample_new_URL
                "file:///nb/q.malloynb" tt (Flag true) 1700000000000
                (sample_URL "file:///nb/q.malloynb") eq_refl) as [Hcells _].
    exact (Hcells sample_cells (sample_URL "file:///nb/")
             [sample_URL "a"; sample_URL "c"] eq_refl eq_refl).
  - destruct (refresh_flag_normalized_with_cells sample_new_URL
                "file:///nb/q.malloynb" tt (Timestamp 1600000000000) 1700000000000
                (sample_URL "file:///nb/q.malloynb") eq_refl) as (_ & _ & _ & _ & Hnone).
    exact Hnone.
Defined.

Lemma createRunnable_by_type_witness :
  createRunnable sample_new_URL sample_final_query tt None 0
  = Resolved (loadFinalQuery
                (loadModel tt (sample_URL "file:///q.malloy")
                   {| importBaseURL := None; refreshSchemaCache := Omitted |})) ∧
  createRunnable sample_new_URL sample_final_query tt (Some sample_text_cells) 0
  = Rejected (JsError "Missing model definition") ∧
  createRunnable sample_new_URL sample_unknown_query tt None 0
  = Rejected (JsError "Internal Error: Unexpected query type").
Proof.
  split; [ | split ].
  - destruct (createRunnable_by_type sample_new_URL sample_final_query tt None 0)
      as [Hcases _].
    destruct (Hcases _ eq_refl) as (_ & _ & Hfinal & _).
    exact (Hfinal eq_refl eq_refl).
  - destruct (createRunnable_by_type sample_new_URL sample_final_query tt
                (Some sample_text_cells) 0) as (_ & Hmissing & _).
    apply Hmissing. reflexivity.
  - destruct (createRunnable_by_type sample_new_URL sample_unknown_query tt None 0)
      as (_ & _ & Hunknown & _).
    apply Hunknown. split; [ eexists; reflexivity | reflexivity ].
Defined.

End CreateRunnableProofs.

(** * Properties of the connection save hook *)
Module EditConnectionsProofs.
Import EditConnections.

Lemma scrubbed_set_useKeychainPassword (v : option bool) (c : ConnectionConfig) :
  scrubbed (set_useKeychainPassword v c) = scrubbed c.
Proof. reflexivity. Qed.

(** The password the hook writes for a connection is the one the Postgres
    credential reader finds for the scrubbed copy. *)
Lemma scrubbed_password_read_back (c : ConnectionConfig) (pw : string)
    (keychain : Keychain) :
  pw ≠ "" →
  ConnectionManager.pg_password
    (ConnectionManager.configReader (scrubbed c)
       (keytar_apply keychain
          (setPassword keychain_service (keychain_account (id c)) pw)))
  = Some pw.
Proof.
  intros Hne. unfold ConnectionManager.configReader, keytar_apply. simpl.
  rewrite lookup_insert_eq.
  unfold ConnectionManager.or_undefined, truthy_string.
  destruct (String.eqb_spec pw ""); [ contradiction | reflexivity ].
Qed.

Lemma kept_no_password (defaultIndex : option nat) (index : nat)
    (c c' : ConnectionConfig) :
  kept defaultIndex index c = Some c' → read (password c') = None.
Proof.
  unfold kept. destruct (password c) as [| v] eqn:Hp; simpl.
  - destruct (truthy_bool (isGenerated c)); [ discriminate | ].
    intros [= <-]. simpl. rewrite Hp. reflexivity.
  - destruct (truthy_string v); [ | discriminate ].
    intros [= <-]. reflexivity.
Qed.

(** One iteration appends what is kept of the connection. *)
Lemma preSave_iteration_modified (defaultIndex : option nat) (index : nat)
    (c : ConnectionConfig) (acc : PreSave) :
  modifiedConnections (preSave_iteration defaultIndex index c acc)
  = modifiedConnections acc ++ match kept defaultIndex index c with
                               | Some c' => [c']
                               | None => []
                               end.
Proof.
  unfold preSave_iteration, kept.
  destruct (password c) as [| [pw |]] eqn:Hp; simpl; rewrite ?Hp; simpl.
  - destruct (truthy_bool (isGenerated c)); simpl; [ rewrite app_nil_r | ]; reflexivity.
  - destruct (is_false (useKeychainPassword c)); simpl; rewrite ?Hp; simpl;
      destruct (String.eqb pw ""); simpl; rewrite ?app_nil_r; reflexivity.
  - destruct (is_false (useKeychainPassword c)); simpl; rewrite ?Hp; simpl;
      rewrite ?app_nil_r; reflexivity.
Qed.

(** One iteration makes the password write of the connection, after the
    deletion it may have to make. *)
Lemma preSave_iteration_keytar (defaultIndex : option nat) (index : nat)
    (c : ConnectionConfig) (acc : PreSave) :
  ∃ deletions,
    keytar (preSave_iteration defaultIndex index c acc)
    = keytar acc ++ deletions ++ password_writes [c] ∧
    ∀ call, call ∈ deletions →
      call = deletePassword keychain_service (keychain_account (id c)).
Proof.
  unfold preSave_iteration, password_writes.
  destruct (password c) as [| [pw |]] eqn:Hp; simpl; rewrite ?Hp; simpl.
  - exists []. split; [ | intros call Hin; inversion Hin ].
    destruct (truthy_bool (isGenerated c)); simpl; rewrite app_nil_r; reflexivity.
  - destruct (is_false (useKeychainPassword c)); simpl; rewrite ?Hp; simpl.
    + exists [ deletePassword keychain_service (keychain_account (id c)) ].
      split; [ | intros call Hin; apply list_elem_of_singleton in Hin; exact Hin ].
      destruct (String.eqb pw ""); simpl; rewrite <- ?app_assoc; reflexivity.
    + exists []. split; [ | intros call Hin; inversion Hin ].
      destruct (String.eqb pw ""); simpl; rewrite ?app_nil_r; reflexivity.
  - destruct (is_false (useKeychainPassword c)); simpl; rewrite ?Hp; simpl.
    + exists [ deletePassword keychain_service (keychain_account (id c)) ].
      split; [ reflexivity | intros call Hin; apply list_elem_of_singleton in Hin; exact Hin ].
    + exists []. split; [ rewrite app_nil_r; reflexivity | intros call Hin; inversion Hin ].
Qed.

Lemma preSave_loop_modified (defaultIndex : option nat) (l : list ConnectionConfig)
    (index : nat) (acc : PreSave) :
  modifiedConnections (preSave_loop defaultIndex index l acc)
  = modifiedConnections acc ++ returned_from defaultIndex index l.
Proof.
  revert index acc. induction l as [| c rest IH]; intros index acc; simpl.
  - rewrite app_nil_r. reflexivity.
  - rewrite IH, preSave_iteration_modified, <- app_assoc.
    destruct (kept defaultIndex index c); reflexivity.
Qed.

Lemma password_writes_cons (c : ConnectionConfig) (rest : list ConnectionConfig) :
  password_writes (c :: rest) = password_writes [c] ++ password_writes rest.
Proof. unfold password_writes. simpl. rewrite app_nil_r. reflexivity. Qed.

(** Every password write of the list is among the keytar calls. *)
Lemma preSave_loop_keytar (defaultIndex : option nat) (l : list ConnectionConfig)
    (index : nat) (acc : PreSave) (call : KeytarCall) :
  call ∈ keytar acc ∨ call ∈ password_writes l →
  call ∈ keytar (preSave_loop defaultIndex index l acc).
Proof.
  revert index acc. induction l as [| c rest IH]; intros index acc Hin; simpl.
  - destruct Hin as [Hin | Hin]; [ exact Hin | inversion Hin ].
  - apply IH.
    destruct (preSave_iteration_keytar defaultIndex index c acc) as (dels & -> & _).
    destruct Hin as [Hin | Hin].
    + left. apply elem_of_app. left. exact Hin.
    + rewrite password_writes_cons in Hin.
      apply elem_of_app in Hin as [Hin | Hin].
      * left. apply elem_of_app. right. apply elem_of_app. right. exact Hin.
      * right. exact Hin.
Qed.

Lemma returned_from_lookup (defaultIndex : option nat) (l : list ConnectionConfig)
    (start i : nat) (c c' : ConnectionConfig) :
  l !! i = Some c →
  kept defaultIndex (start + i) c = Some c' →
  c' ∈ returned_from defaultIndex start l.
Proof.
  revert start i. induction l as [| x rest IH]; intros start i Hl Hk; [ discriminate | ].
  destruct i as [| i]; simpl in *.
  - injection Hl as ->. rewrite Nat.add_0_r in Hk. rewrite Hk. left.
  - assert (Hin : c' ∈ returned_from defaultIndex (S start) rest).
    { apply (IH (S start) i Hl). rewrite <- Nat.add_succ_comm in Hk. exact Hk. }
    destruct (kept defaultIndex start x); [ right | ]; exact Hin.
Qed.

Lemma returned_from_elem (defaultIndex : option nat) (l : list ConnectionConfig)
    (start : nat) (c' : ConnectionConfig) :
  c' ∈ returned_from defaultIndex start l →
  ∃ i c, l !! i = Some c ∧ kept defaultIndex (start + i) c = Some c'.
Proof.
  revert start. induction l as [| x rest IH]; intros start Hin; simpl in Hin.
  - inversion Hin.
  - assert (Hrest : c' ∈ returned_from defaultIndex (S start) rest →
                    ∃ i c, (x :: rest) !! i = Some c ∧
                           kept defaultIndex (start + i) c = Some c').
    { intros H. destruct (IH _ H) as (i & c & Hl & Hk).
      exists (S i), c. split; [ exact Hl | ].
      rewrite <- Nat.add_succ_comm. exact Hk. }
    destruct (kept defaultIndex start x) as [k |] eqn:Hk; [ | exact (Hrest Hin) ].
    apply elem_of_cons in Hin as [-> | Hin]; [ | exact (Hrest Hin) ].
    exists 0%nat, x. split; [ reflexivity | ]. rewrite Nat.add_0_r. exact Hk.
Qed.

Lemma password_writes_elem (l : list ConnectionConfig) (i : nat)
    (c : ConnectionConfig) (pw : string) :
  l !! i = Some c → read (password c) = Some pw → pw ≠ "" →
  setPassword keychain_service (keychain_account (id c)) pw ∈ password_writes l.
Proof.
  intros Hl Hp Hne. unfold password_writes.
  apply list_elem_of_In, in_flat_map. exists c.
  split; [ apply list_elem_of_In, list_elem_of_lookup; exists i; exact Hl | ].
  rewrite Hp. destruct (String.eqb_spec pw ""); [ contradiction | left; reflexivity ].
Qed.

Section WithDefaultIndex.

Variable getDefaultIndex : list ConnectionConfig → option nat.

(** C10.  The returned list is what is kept of each connection, in order,
    and no entry of it carries a password.  A connection with a non-empty
    password is returned as its copy with [password] undefined and
    [useKeychainPassword] true, and its password is written to the
    keychain under the connection's id.  A connection with a password field
    that is empty or undefined is not kept, nor is a generated connection
    without a password field. *)
Theorem handleConnectionsPreSave_scrubs (l : list ConnectionConfig) :
  modifiedConnections (handleConnectionsPreSave getDefaultIndex l)
  = returned_from (getDefaultIndex l) 0 l ∧
  (∀ c', c' ∈ modifiedConnections (handleConnectionsPreSave getDefaultIndex l) →
         read (password c') = None) ∧
  (∀ i c pw,
     l !! i = Some c → read (password c) = Some pw → pw ≠ "" →
     let c' := scrubbed (set_isDefault (is_index i (getDefaultIndex l)) c) in
     kept (getDefaultIndex l) i c = Some c' ∧
     c' ∈ modifiedConnections (handleConnectionsPreSave getDefaultIndex l) ∧
     password c' = Holds None ∧ useKeychainPassword c' = Some true ∧
     name c' = name c ∧ id c' = id c ∧
     setPassword keychain_service (keychain_account (id c)) pw
       ∈ keytar (handleConnectionsPreSave getDefaultIndex l)) ∧
  (∀ i c,
     has_property (password c) = true → truthy_string (read (password c)) = false →
     kept (getDefaultIndex l) i c = None) ∧
  (∀ i c,
     has_property (password c) = false → truthy_bool (isGenerated c) = true →
     kept (getDefaultIndex l) i c = None).
Proof.
  assert (Hret : modifiedConnections (handleConnectionsPreSave getDefaultIndex l)
                 = returned_from (getDefaultIndex l) 0 l).
  { unfold handleConnectionsPreSave. rewrite preSave_loop_modified. reflexivity. }
  split; [ exact Hret | ].
  split; [ | split; [ | split ] ].
  - intros c' Hin. rewrite Hret in Hin.
    destruct (returned_from_elem _ _ _ _ Hin) as (i & c & _ & Hk).
    exact (kept_no_password _ _ _ _ Hk).
  - intros i c pw Hl Hp Hne c'.
    assert (Hk : kept (getDefaultIndex l) i c = Some c').
    { unfold kept. destruct (password c) as [| v]; [ discriminate | ].
      simpl in *. subst v. simpl.
      destruct (String.eqb_spec pw ""); [ contradiction | reflexivity ]. }
    split; [ exact Hk | ].
    split; [ rewrite Hret; apply (returned_from_lookup _ _ 0 i c c' Hl Hk) | ].
    do 4 (split; [ reflexivity | ]).
    unfold handleConnectionsPreSave. apply preSave_loop_keytar. right.
    apply (password_writes_elem l i c pw Hl Hp Hne).
  - intros i c Hhas Hfalsy. unfold kept. rewrite Hhas, Hfalsy. reflexivity.
  - intros i c Hhas Hgen. unfold kept. rewrite Hhas, Hgen. reflexivity.
Qed.

End WithDefaultIndex.

(** ** A concrete run *)

Lemma handleConnectionsPreSave_scrubs_witness :
  modifiedConnections (handleConnectionsPreSave sample_getDefaultIndex sample_list)
  = [ scrubbed with_password; blank "bq" BigQuery ] ∧
  setPassword "com.malloy-lang.vscode-extension" "connections.id-pg.password" "secret"
    ∈ keytar (handleConnectionsPreSave sample_getDefaultIndex sample_list) ∧
  kept (sample_getDefaultIndex sample_list) 1 with_empty_password = None ∧
  kept (sample_getDefaultIndex sample_list) 2 generated_duckdb = None.
Proof.
  destruct (handleConnectionsPreSave_scrubs sample_getDefaultIndex sample_list)
    as (Hret & _ & Hpw & Hempty & Hgen).
  split; [ rewrite Hret; reflexivity | ].
  split.
  - destruct (Hpw 0%nat with_password "secret") as (_ & _ & _ & _ & _ & _ & Hcall);
      [ reflexivity | reflexivity | discriminate | exact Hcall ].
  - split; [ apply Hempty; reflexivity | apply Hgen; reflexivity ].
Defined.

End EditConnectionsProofs.

(** * Runs of the worker supervisor *)
Module WorkerRuns.
Import Worker.

(** A property kept by every event holds after every run. *)
Lemma run_invariant (P : WorkerConnection → Prop) (events : list Event)
    (s : WorkerConnection) :
  (∀ s' e, P s' → P (step s' e)) → P s → P (run events s).
Proof.
  intros Hstep. revert s. induction events as [| e events IH]; intros s Hs.
  - exact Hs.
  - simpl. apply IH, Hstep, Hs.
Qed.

Lemma run_app (events1 events2 : list Event) (s : WorkerConnection) :
  run (events1 ++ events2) s = run events2 (run events1 s).
Proof. unfold run. apply fold_left_app. Qed.

(** What one event does to the number of workers forked and of restarts
    pending, and to the console. *)
Lemma step_accounting (s : WorkerConnection) (e : Event) :
  (length (forks (step s e)) + length (timers (step s e))
   = length (forks s) + length (timers s) + (if is_abnormal_exit e then 1 else 0))%nat ∧
  (length (console (step s e))
   = length (console s) + (if is_abnormal_exit e then 2 else 0))%nat.
Proof.
  destruct e as [status | |]; simpl.
  - unfold exit_handler. destruct (status_nonzero status); simpl.
    + rewrite !length_app. simpl. lia.
    + lia.
  - lia.
  - unfold run_timer. destruct (timers s) as [| [[] d] rest] eqn:Ht; simpl.
    + rewrite Ht. simpl. lia.
    + rewrite length_app. simpl. lia.
Qed.

Lemma run_accounting (events : list Event) (s : WorkerConnection) :
  (length (forks (run events s)) + length (timers (run events s))
   = length (forks s) + length (timers s)
     + length (List.filter is_abnormal_exit events))%nat ∧
  (length (console (run events s))
   = length (console s) + 2 * length (List.filter is_abnormal_exit events))%nat.
Proof.
  revert s. induction events as [| e events IH]; intros s; simpl.
  - lia.
  - destruct (IH (step s e)) as [IHf IHc].
    destruct (step_accounting s e) as [Hf Hc].
    change (fold_left step events (step s e)) with (run events (step s e)).
    destruct (is_abnormal_exit e); simpl; lia.
Qed.

(** X1.  Whatever the sequence of exit events, [stop()] calls and timer
    expirations, the workers forked so far and the restarts still pending
    add up to one (the first worker) plus the number of exits with a
    status other than 0: no abnormal exit goes without its restart, and
    nothing else ever forks.  The console holds two lines per such exit. *)
Theorem restarts_match_abnormal_exits (absolutePath : string) (events : list Event) :
  (length (forks (run events (new_WorkerConnection absolutePath)))
   + length (timers (run events (new_WorkerConnection absolutePath)))
   = 1 + length (List.filter is_abnormal_exit events))%nat ∧
  (length (console (run events (new_WorkerConnection absolutePath)))
   = 2 * length (List.filter is_abnormal_exit events))%nat.
Proof.
  destruct (run_accounting events (new_WorkerConnection absolutePath)) as [Hf Hc].
  simpl in Hf, Hc. split; lia.
Qed.

Lemma startWorker_well_formed (absolutePath : string) (s : WorkerConnection) :
  workerModule s = absolutePath →
  Forall (λ f, f = worker_fork absolutePath) (forks s) →
  Forall (λ t, t = {| callback := StartWorker; delay := 5000 |}) (timers s) →
  Forall (λ sg, sg.2 = "SIGHUP" ∧ (sg.1 < length (forks s))%nat) (signals s) →
  well_formed absolutePath (startWorker s).
Proof.
  intros Hm Hf Ht Hs. unfold well_formed, startWorker. simpl.
  split; [ exact Hm | ].
  split; [ rewrite length_app; simpl; lia | ].
  split; [ apply Forall_app; split; [ exact Hf | ];
           constructor; [ rewrite Hm; reflexivity | constructor ] | ].
  split; [ exact Ht | ].
  eapply Forall_impl; [ exact Hs | ].
  intros sg [Hsig Hlt]. split; [ exact Hsig | ].
  rewrite length_app. simpl. lia.
Qed.

Lemma new_well_formed (absolutePath : string) :
  well_formed absolutePath (new_WorkerConnection absolutePath).
Proof.
  unfold new_WorkerConnection.
  apply startWorker_well_formed; simpl; [ reflexivity | constructor.. ].
Qed.

Lemma step_well_formed (absolutePath : string) (s : WorkerConnection) (e : Event) :
  well_formed absolutePath s → well_formed absolutePath (step s e).
Proof.
  intros (Hm & Hw & Hf & Ht & Hs).
  destruct e as [status | |]; simpl.
  - unfold exit_handler. destruct (status_nonzero status);
      [ | repeat split; assumption ].
    unfold well_formed. simpl.
    repeat split; try assumption.
    apply Forall_app. split; [ exact Ht | constructor; [ reflexivity | constructor ] ].
  - unfold well_formed, stop. simpl.
    repeat split; try assumption.
    apply Forall_app. split; [ exact Hs | ].
    constructor; [ | constructor ]. simpl. split; [ reflexivity | lia ].
  - unfold run_timer. destruct (timers s) as [| [[] d] rest] eqn:Hts.
    + repeat split; try assumption. rewrite Hts. constructor.
    + apply startWorker_well_formed; simpl; try assumption.
      inversion Ht; assumption.
Qed.

(** X2.  After any run, [this.worker] is the child forked last, and every
    child, the first one and every restarted one, has been forked from the
    same module with the same arguments, [--inspect=6010] included. *)
Theorem worker_is_last_fork (absolutePath : string) (events : list Event) :
  S (worker (run events (new_WorkerConnection absolutePath)))
  = length (forks (run events (new_WorkerConnection absolutePath))) ∧
  Forall (λ f, f = worker_fork absolutePath)
    (forks (run events (new_WorkerConnection absolutePath))).
Proof.
  assert (H : well_formed absolutePath (run events (new_WorkerConnection absolutePath))).
  { apply run_invariant; [ apply step_well_formed | apply new_well_formed ]. }
  destruct H as (_ & Hw & Hf & _). split; assumption.
Qed.

Lemma step_signals (s : WorkerConnection) (e : Event) :
  length (signals (step s e))
  = (length (signals s) + (if is_stop e then 1 else 0))%nat.
Proof.
  destruct e as [status | |]; simpl.
  - unfold exit_handler. destruct (status_nonzero status); simpl; lia.
  - rewrite length_app. simpl. lia.
  - unfold run_timer. destruct (timers s) as [| [[] d] rest]; simpl; lia.
Qed.

Lemma run_signals (events : list Event) (s : WorkerConnection) :
  length (signals (run events s))
  = (length (signals s) + length (List.filter is_stop events))%nat.
Proof.
  revert s. induction events as [| e events IH]; intros s; simpl.
  - lia.
  - change (fold_left step events (step s e)) with (run events (step s e)).
    rewrite IH, step_signals. destruct (is_stop e); simpl; lia.
Qed.

(** X3.  After any run, the supervisor has sent exactly one signal per
    [stop()] call, each of them SIGHUP and each addressed to a child that
    had been forked; exit events and timers send none. *)
Theorem only_stop_signals (absolutePath : string) (events : list Event) :
  length (signals (run events (new_WorkerConnection absolutePath)))
  = length (List.filter is_stop events) ∧
  Forall (λ sg, sg.2 = "SIGHUP" ∧
                (sg.1 < length (forks (run events (new_WorkerConnection absolutePath))))%nat)
    (signals (run events (new_WorkerConnection absolutePath))).
Proof.
  split.
  - rewrite run_signals. reflexivity.
  - assert (H : well_formed absolutePath (run events (new_WorkerConnection absolutePath))).
    { apply run_invariant; [ apply step_well_formed | apply new_well_formed ]. }
    destruct H as (_ & _ & _ & _ & Hs). exact Hs.
Qed.

Lemma step_same_supervision (s s' : WorkerConnection) (e : Event) :
  same_supervision s s' → same_supervision (step s e) (step s' e).
Proof.
  intros (Hm & Hw & Hf & Ht & Hc).
  destruct e as [status | |]; simpl.
  - unfold exit_handler. destruct (status_nonzero status); unfold same_supervision;
      simpl; rewrite ?Hm, ?Hw, ?Hf, ?Ht, ?Hc; repeat split; assumption || reflexivity.
  - unfold same_supervision. simpl. repeat split; assumption.
  - unfold run_timer. rewrite Ht.
    destruct (timers s') as [| [[] d] rest] eqn:Ht'; unfold same_supervision; simpl;
      rewrite ?Hm, ?Hw, ?Hf, ?Hc, ?Ht'; repeat split; congruence.
Qed.

(** X4.  [stop()] has no part in the supervision: a run and the same run
    with its [stop()] calls left out fork the same workers, leave the same
    restarts pending and write the same console lines.  In particular a
    [stop()] never cancels a pending restart nor prevents a later one. *)
Theorem stop_never_affects_restarts (events : list Event) (s : WorkerConnection) :
  forks (run events s) = forks (run (List.filter (λ e, negb (is_stop e)) events) s) ∧
  timers (run events s) = timers (run (List.filter (λ e, negb (is_stop e)) events) s) ∧
  worker (run events s) = worker (run (List.filter (λ e, negb (is_stop e)) events) s) ∧
  console (run events s) = console (run (List.filter (λ e, negb (is_stop e)) events) s).
Proof.
  assert (H : ∀ s1 s2, same_supervision s1 s2 →
                same_supervision (run events s1)
                  (run (List.filter (λ e, negb (is_stop e)) events) s2)).
  { induction events as [| e events IH]; intros s1 s2 Hsame; [ exact Hsame | ].
    simpl. destruct e as [status | |]; simpl.
    - apply IH. apply (step_same_supervision s1 s2 (Exit status) Hsame).
    - apply IH. destruct Hsame as (Hm & Hw & Hf & Ht & Hc).
      unfold same_supervision. simpl. repeat split; assumption.
    - apply IH. apply (step_same_supervision s1 s2 TimerFires Hsame). }
  destruct (H s s) as (_ & Hw & Hf & Ht & Hc); [ repeat split | ].
  repeat split; assumption.
Qed.

End WorkerRuns.

(** * More on the connection manager *)
Module ConnectionManagerMore.
Import ConnectionManager ConnectionManagerProofs.

Example sample_dirname_example :
  sample_dirname "/home/me/flights.malloy" = "/home/me".
Proof. reflexivity. Qed.

(** ** Filtering out unavailable backends *)

Lemma filter_sublist {A : Type} (f : A → bool) (l : list A) :
  List.filter f l `sublist_of` l.
Proof.
  induction l as [| x l IH]; simpl; [ constructor | ].
  destruct (f x); constructor; exact IH.
Qed.

Lemma filter_twice {A : Type} (f : A → bool) (l : list A) :
  List.filter f (List.filter f l) = List.filter f l.
Proof.
  induction l as [| x l IH]; simpl; [ reflexivity | ].
  destruct (f x) eqn:Hx; simpl; rewrite ?Hx, IH; reflexivity.
Qed.

(** X5.  Where DuckDB is available the filter returns the list as it is;
    where it is not, it returns exactly the entries whose backend is not
    DuckDB.  In both cases the entries kept stay in their order, and
    filtering a second time changes nothing. *)
Theorem filterUnavailable_keeps_the_rest (avail : bool) (l : list ConnectionConfig) :
  filterUnavailableConnectionBackends true l = l ∧
  (∀ c, In c (filterUnavailableConnectionBackends false l)
        ↔ In c l ∧ backend c ≠ DuckDB) ∧
  filterUnavailableConnectionBackends avail l `sublist_of` l ∧
  filterUnavailableConnectionBackends avail
    (filterUnavailableConnectionBackends avail l)
  = filterUnavailableConnectionBackends avail l.
Proof.
  unfold filterUnavailableConnectionBackends.
  split; [ | split; [ | split ] ].
  - induction l as [| c l IH]; [ reflexivity | ].
    cbn [List.filter orb]. f_equal. exact IH.
  - intros c. rewrite List.filter_In. simpl.
    split; intros [Hin Hb]; (split; [ exact Hin | ]).
    + intros Heq. rewrite Heq in Hb. discriminate.
    + destruct (backend c); try reflexivity. contradiction.
  - apply filter_sublist.
  - apply filter_twice.
Qed.

(** ** The configuration map *)

Lemma add_config_named (m : gmap (option string) ConnectionConfig)
    (config : ConnectionConfig) (n : string) :
  add_config m config !! Some n
  = if named n config then Some config else m !! Some n.
Proof.
  unfold add_config, named.
  destruct (String.eqb_spec (name config) n) as [-> | Hne].
  - apply lookup_insert_eq.
  - rewrite lookup_insert_ne by congruence.
    destruct (truthy_bool (isDefault config)); [ | reflexivity ].
    apply lookup_insert_ne. discriminate.
Qed.

Lemma fold_add_config_named (l : list ConnectionConfig)
    (m : gmap (option string) ConnectionConfig) (n : string) :
  fold_left add_config l m !! Some n
  = match last_named n l with
    | Some c => Some c
    | None => m !! Some n
    end.
Proof.
  unfold last_named.
  induction l as [| c l IH] using rev_ind; [ reflexivity | ].
  rewrite fold_left_app, rev_app_distr. simpl.
  rewrite add_config_named.
  destruct (named n c); [ reflexivity | exact IH ].
Qed.

Lemma last_named_name (n : string) (l : list ConnectionConfig) (c : ConnectionConfig) :
  last_named n l = Some c → name c = n ∧ In c l.
Proof.
  unfold last_named. intros H. apply List.find_some in H as [Hin Hn].
  split; [ apply String.eqb_eq, Hn | apply List.in_rev, Hin ].
Qed.


Lemma resolved_configs_has_duckdb (l : list ConnectionConfig) :
  ∃ c, last_named "duckdb" (resolved_configs l) = Some c.
Proof.
  assert (H : ∀ l', (∃ c, In c l' ∧ named "duckdb" c = true) →
                    ∃ c, last_named "duckdb" l' = Some c).
  { intros l' (c & Hin & Hn). unfold last_named.
    destruct (List.find (named "duckdb") (rev l')) as [c' |] eqn:Hf; [ eauto | ].
    pose proof (List.find_none _ _ Hf c (proj1 (List.in_rev _ _) Hin)). congruence. }
  apply H. unfold resolved_configs.
  set (l0 := if (length l =? 0)%nat then [default_bigquery] else l).
  change (λ c, String.eqb (name c) "duckdb") with named_duckdb.
  destruct (List.find named_duckdb l0) as [c |] eqn:Hf.
  - apply List.find_some in Hf. exists c. exact Hf.
  - exists default_duckdb. split; [ apply in_or_app; right; left | ]; reflexivity.
Qed.

(** X7.  Whatever list is configured, and whatever was configured before,
    the name ["duckdb"] is known afterwards: to the entry of the list that
    carries the name if there is one (the last one), to the synthesized
    entry otherwise. *)
Theorem duckdb_is_always_configured (l : list ConnectionConfig)
    (m : gmap (option string) ConnectionConfig) :
  ∃ c, buildConfigMap l m !! Some "duckdb" = Some c ∧ name c = "duckdb" ∧
       (In c l ∨ c = default_duckdb).
Proof.
  destruct (resolved_configs_has_duckdb l) as [c Hc].
  exists c. unfold buildConfigMap. rewrite fold_add_config_named, Hc.
  split; [ reflexivity | ].
  destruct (last_named_name _ _ _ Hc) as [Hn Hin]. split; [ exact Hn | ].
  destruct l as [| c0 l].
  - simpl in Hin. destruct Hin as [<- | [<- | []]];
      [ discriminate Hn | right; reflexivity ].
  - rewrite resolved_configs_nonempty in Hin.
    destruct (List.find named_duckdb (c0 :: l)); [ left; exact Hin | ].
    apply in_app_or in Hin as [Hin | [<- | []]]; [ left; exact Hin | right; reflexivity ].
Qed.

Lemma filterUnavailable_keeps_the_rest_witness :
  In sample_a (filterUnavailableConnectionBackends false [sample_a; default_duckdb]) ∧
  ¬ In default_duckdb (filterUnavailableConnectionBackends false [sample_a; default_duckdb]).
Proof.
  destruct (filterUnavailable_keeps_the_rest false [sample_a; default_duckdb])
    as (_ & Hiff & _).
  split.
  - apply Hiff. split; [ left; reflexivity | discriminate ].
  - intros Hin. apply Hiff in Hin as [_ Hb]. apply Hb. reflexivity.
Defined.


(** ** The default entry *)

Lemma last_default_none (l : list ConnectionConfig) :
  last_default l = None ↔ Forall (λ c, is_default c = false) l.
Proof.
  unfold last_default. split.
  - intros Hf. apply List.Forall_forall. intros c Hin.
    apply (List.find_none _ _ Hf). apply List.in_rev in Hin. exact Hin.
  - intros Hall. destruct (List.find is_default (rev l)) as [c |] eqn:Hf; [ | reflexivity ].
    apply List.find_some in Hf as [Hin Hd].
    rewrite List.Forall_forall in Hall.
    rewrite (Hall c) in Hd; [ discriminate | apply List.in_rev, Hin ].
Qed.

(** X8.  A manager constructed from a list has no default configuration
    exactly when the list is not empty and none of its entries is flagged
    as default; a lookup that omits the name is then rejected with the
    message "No connection found with name undefined", and nothing is
    constructed or remembered. *)
Theorem no_default_without_flag (isDuckDBAvailable : bool)
    (l : list ConnectionConfig) (p : Process) :
  (configs (new_ConnectionManager l p) !! DEFAULT_CONFIG = None
   ↔ l ≠ [] ∧ Forall (λ c, is_default c = false) l) ∧
  (l ≠ [] → Forall (λ c, is_default c = false) l →
   ∀ (this : DynamicConnectionLookup) (q : Process),
     connections this !! DEFAULT_CONFIG = None →
     lookupConnection isDuckDBAvailable None (configs (new_ConnectionManager l p)) this q
     = (Rejected (JsString "No connection found with name undefined"), this, q)).
Proof.
  assert (Hiff : configs (new_ConnectionManager l p) !! DEFAULT_CONFIG = None
                 ↔ l ≠ [] ∧ Forall (λ c, is_default c = false) l).
  { simpl. unfold buildConfigMap. rewrite fold_add_config_default.
    destruct l as [| c0 l].
    - simpl. split; [ discriminate | intros [H _]; congruence ].
    - rewrite last_default_resolved, lookup_empty.
      destruct (last_default (c0 :: l)) as [d |] eqn:Hd.
      + split; [ discriminate | ]. intros [_ Hall].
        apply last_default_none in Hall. congruence.
      + split; [ | reflexivity ]. intros _.
        split; [ discriminate | apply last_default_none, Hd ]. }
  split; [ exact Hiff | ].
  intros Hne Hall this q Hmiss.
  unfold lookupConnection. change (connectionKey None) with DEFAULT_CONFIG.
  rewrite Hmiss, (proj2 Hiff (conj Hne Hall)). reflexivity.
Qed.

Lemma no_default_without_flag_witness :
  lookupConnection true None
    (configs (new_ConnectionManager [sample_other] fresh_process))
    sample_lookup fresh_process
  = (Rejected (JsString "No connection found with name undefined"),
     sample_lookup, fresh_process).
Proof.
  destruct (no_default_without_flag true [sample_other] fresh_process) as [_ H].
  apply H; [ discriminate | repeat constructor | reflexivity ].
Defined.

(** ** Lookups by name *)



(** X10.  The empty string as a name stands for the default connection: a
    lookup of [""] does what the lookup without a name does, even where a
    configuration is stored under the name [""], whenever the default is
    resolved already or configured. *)
Theorem empty_name_is_default (isDuckDBAvailable : bool)
    (cfgs : gmap (option string) ConnectionConfig)
    (this : DynamicConnectionLookup) (p : Process) :
  is_Some (connections this !! DEFAULT_CONFIG) ∨ is_Some (cfgs !! DEFAULT_CONFIG) →
  lookupConnection isDuckDBAvailable (Some "") cfgs this p
  = lookupConnection isDuckDBAvailable None cfgs this p.
Proof.
  intros Hsome. unfold lookupConnection.
  change (connectionKey (Some "")) with DEFAULT_CONFIG.
  change (connectionKey None) with DEFAULT_CONFIG.
  destruct (connections this !! DEFAULT_CONFIG) as [promise |]; [ reflexivity | ].
  destruct (cfgs !! DEFAULT_CONFIG) as [cfg |]; [ reflexivity | ].
  destruct Hsome as [[x Hx] | [x Hx]]; discriminate.
Qed.

Lemma empty_name_is_default_witness :
  lookupConnection true (Some "")
    (configs (new_ConnectionManager [sample_a] fresh_process))
    sample_lookup fresh_process
  = lookupConnection true None
      (configs (new_ConnectionManager [sample_a] fresh_process))
      sample_lookup fresh_process.
Proof.
  apply empty_name_is_default. right. exists sample_a. vm_compute. reflexivity.
Defined.

(** ** Names of members of [Object.prototype] *)

(** X28.  A pooled [getConnectionForConfig] call for a name of a member of
    [Object.prototype], when the pool holds no entry of its own under that
    name, resolves to the inherited member whatever the backend, and
    constructs and stores nothing.  A [lookupConnection] of such a name,
    on a lookup object that holds no promise of its own under it, resolves
    to the inherited member whether or not the name is configured, and
    changes nothing. *)
Theorem inherited_name_resolves_to_member (isDuckDBAvailable : bool) :
  (∀ cfg opts p,
     pooling opts = true →
     ConnectionPool p !! name cfg = None →
     inherited_name (name cfg) = true →
     getConnectionForConfig isDuckDBAvailable cfg opts p = (Inherited (name cfg), p)) ∧
  (∀ n cfgs this p,
     inherited_name n = true →
     connections this !! Some n = None →
     lookupConnection isDuckDBAvailable (Some n) cfgs this p = (Inherited n, this, p)).
Proof.
  split.
  - intros cfg opts p. apply getConnection_inherited.
  - intros n cfgs this p Hinh Hc.
    assert (Hkey : connectionKey (Some n) = Some n).
    { unfold connectionKey, truthy_string.
      destruct (String.eqb_spec n "") as [-> | _]; [ discriminate Hinh | reflexivity ]. }
    unfold lookupConnection. rewrite Hkey, Hc. simpl. rewrite Hinh. reflexivity.
Qed.

Lemma inherited_name_resolves_to_member_witness :
  getConnectionForConfig true sample_constructor sample_pooled fresh_process
  = (Inherited "constructor", fresh_process) ∧
  lookupConnection true (Some "toString")
    (configs (new_ConnectionManager [sample_a] fresh_process))
    sample_lookup fresh_process
  = (Inherited "toString", sample_lookup, fresh_process).
Proof.
  destruct (inherited_name_resolves_to_member true) as [Hpool Hlookup].
  split.
  - apply (Hpool sample_constructor sample_pooled fresh_process); reflexivity.
  - apply Hlookup; reflexivity.
Defined.

(** ** The pool *)

Section WithBuild.

Variable isDuckDBAvailable : bool.

#[local] Abbreviation getConnection := (getConnectionForConfig isDuckDBAvailable).
#[local] Abbreviation after_calls := (ConnectionManager.after_calls isDuckDBAvailable).

Lemma pool_ok_allocated (pool : gmap string Connection) (n : nat) :
  pool_ok {| ConnectionPool := pool; allocated := n |} →
  pool_ok {| ConnectionPool := pool; allocated := S n |}.
Proof.
  intros [Hentries Hinj]. split; [ | exact Hinj ].
  intros key c Hin. destruct (Hentries key c Hin) as (Hlt & Hn & Hd).
  simpl in *. repeat split; [ lia | exact Hn | exact Hd ].
Qed.

Lemma pool_ok_store (u : option bool) (args : ConnectionArgs) (p : Process) :
  pool_ok p →
  is_DuckDBConnection args = false →
  pool_ok (pool_store u (connection_name args)
             {| object_id := allocated p; built := args |}
             {| ConnectionPool := ConnectionPool p; allocated := S (allocated p) |}).
Proof.
  intros Hok Hd. unfold pool_store.
  destruct (truthy_bool u); [ | destruct p; apply pool_ok_allocated, Hok ].
  destruct Hok as [Hentries Hinj]. split; simpl.
  - intros key c. rewrite lookup_insert. case_decide as Hk.
    + intros [= <-]. simpl. repeat split; [ lia | exact Hk | exact Hd ].
    + intros Hin. destruct (Hentries key c Hin) as (Hlt & Hn & Hdd).
      repeat split; [ lia | exact Hn | exact Hdd ].
  - intros key1 key2 c1 c2. rewrite !lookup_insert.
    case_decide as Hk1; case_decide as Hk2.
    + congruence.
    + intros [= <-] Hin Hid. simpl in Hid.
      destruct (Hentries key2 c2 Hin) as (Hlt & _). lia.
    + intros Hin [= <-] Hid. simpl in Hid.
      destruct (Hentries key1 c1 Hin) as (Hlt & _). lia.
    + apply Hinj.
Qed.

Lemma getConnection_pool_ok (cfg : ConnectionConfig) (opts : ConfigOptions)
    (p : Process) :
  pool_ok p → pool_ok (getConnection cfg opts p).2.
Proof.
  intros Hok.
  destruct (pool_hit_or_miss cfg opts p)
    as [[Hpool [c0 Hc0]] | [[Hpool [Hnone Hinh]] | Hmiss]].
  - rewrite (getConnection_pooled _ _ _ _ _ Hpool Hc0). exact Hok.
  - rewrite (getConnection_inherited _ _ _ _ Hpool Hnone Hinh). exact Hok.
  - destruct (backend cfg) as [ | | | tag] eqn:Hb.
    + rewrite (getConnection_bigquery _ _ _ _ Hb Hmiss). simpl.
      apply (pool_ok_store _ (BigQueryConnection (name cfg) _ _ _ _) p Hok eq_refl).
    + rewrite (getConnection_postgres _ _ _ _ Hb Hmiss). simpl.
      apply (pool_ok_store _ (PostgresConnection (name cfg) _ _) p Hok eq_refl).
    + rewrite (getConnection_duckdb _ _ _ _ Hb Hmiss).
      destruct isDuckDBAvailable; [ | exact Hok ].
      simpl. destruct p. apply pool_ok_allocated, Hok.
    + rewrite (getConnection_other _ _ _ _ _ Hb Hmiss). exact Hok.
Qed.

Lemma empty_pool_ok (n : nat) : pool_ok {| ConnectionPool := ∅; allocated := n |}.
Proof.
  split.
  - intros key c H. simpl in H. rewrite lookup_empty in H. discriminate.
  - intros key1 key2 c1 c2 H. simpl in H. rewrite lookup_empty in H. discriminate.
Qed.

Lemma after_calls_pool_ok (calls : list (ConnectionConfig * ConfigOptions))
    (p : Process) :
  pool_ok p → pool_ok (after_calls calls p).
Proof.
  revert p. induction calls as [| call calls IH]; intros p Hok; [ exact Hok | ].
  simpl. apply IH, getConnection_pool_ok, Hok.
Qed.

(** The connection a call resolves to carries the name asked for. *)
Lemma getConnection_result_name (cfg : ConnectionConfig) (opts : ConfigOptions)
    (p : Process) (c : Connection) :
  pool_ok p →
  (getConnection cfg opts p).1 = Resolved (Some c) →
  connection_name (built c) = name cfg.
Proof.
  intros [Hentries _].
  destruct (pool_hit_or_miss cfg opts p)
    as [[Hpool [c0 Hc0]] | [[Hpool [Hnone Hinh]] | Hmiss]].
  - rewrite (getConnection_pooled _ _ _ _ _ Hpool Hc0). simpl.
    intros [= <-]. apply (Hentries _ _ Hc0).
  - rewrite (getConnection_inherited _ _ _ _ Hpool Hnone Hinh). discriminate.
  - destruct (backend cfg) as [ | | | tag] eqn:Hb.
    + rewrite (getConnection_bigquery _ _ _ _ Hb Hmiss). simpl. intros [= <-]. reflexivity.
    + rewrite (getConnection_postgres _ _ _ _ Hb Hmiss). simpl. intros [= <-]. reflexivity.
    + rewrite (getConnection_duckdb _ _ _ _ Hb Hmiss).
      destruct isDuckDBAvailable; simpl; [ intros [= <-]; reflexivity | discriminate ].
    + rewrite (getConnection_other _ _ _ _ _ Hb Hmiss). discriminate.
Qed.

(** No call stores a connection under the name of a member of
    [Object.prototype]: a pooled call for such a name returns before the
    switch. *)
Lemma getConnection_own_names (cfg : ConnectionConfig) (opts : ConfigOptions)
    (p : Process) :
  own_names_ok p → own_names_ok (getConnection cfg opts p).2.
Proof.
  intros Hown.
  destruct (pool_hit_or_miss cfg opts p)
    as [[Hpool [c0 Hc0]] | [[Hpool [Hnone Hinh]] | Hmiss]].
  - rewrite (getConnection_pooled _ _ _ _ _ Hpool Hc0). exact Hown.
  - rewrite (getConnection_inherited _ _ _ _ Hpool Hnone Hinh). exact Hown.
  - assert (Hstore : ∀ c,
              own_names_ok (pool_store (read (opt_usePool opts)) (name cfg) c
                {| ConnectionPool := ConnectionPool p; allocated := S (allocated p) |})).
    { intros c key c'. unfold pool_store.
      destruct (truthy_bool (read (opt_usePool opts))) eqn:Hu; simpl; [ | apply Hown ].
      rewrite lookup_insert. case_decide as Hk; [ | apply Hown ].
      intros _. subst key. exact (proj2 (Hmiss Hu)). }
    destruct (backend cfg) as [ | | | tag] eqn:Hb.
    + rewrite (getConnection_bigquery _ _ _ _ Hb Hmiss). apply Hstore.
    + rewrite (getConnection_postgres _ _ _ _ Hb Hmiss). apply Hstore.
    + rewrite (getConnection_duckdb _ _ _ _ Hb Hmiss).
      destruct isDuckDBAvailable; exact Hown.
    + rewrite (getConnection_other _ _ _ _ _ Hb Hmiss). exact Hown.
Qed.

Lemma after_calls_own_names (calls : list (ConnectionConfig * ConfigOptions))
    (p : Process) :
  own_names_ok p → own_names_ok (after_calls calls p).
Proof.
  revert p. induction calls as [| call calls IH]; intros p Hown; [ exact Hown | ].
  simpl. apply IH, getConnection_own_names, Hown.
Qed.

(** X11.  Starting from an empty pool, after any sequence of
    [getConnectionForConfig] calls: every pool entry is a BigQuery or
    Postgres connection that was constructed in this process under the
    very name it is stored at, and no connection object is stored under
    two names; a pooled call for the name of a member of
    [Object.prototype] resolves to that member and changes nothing; and a
    call that resolves to a connection resolves to one that carries the
    name of the configuration asked for. *)
Theorem pool_entries_match_their_names
    (calls : list (ConnectionConfig * ConfigOptions)) (n : nat) :
  pool_ok (after_calls calls {| ConnectionPool := ∅; allocated := n |}) ∧
  (∀ cfg opts,
     pooling opts = true → inherited_name (name cfg) = true →
     getConnection cfg opts
       (after_calls calls {| ConnectionPool := ∅; allocated := n |})
     = (Inherited (name cfg),
        after_calls calls {| ConnectionPool := ∅; allocated := n |})) ∧
  ∀ cfg opts c,
    (getConnection cfg opts
       (after_calls calls {| ConnectionPool := ∅; allocated := n |})).1
    = Resolved (Some c) →
    connection_name (built c) = name cfg.
Proof.
  assert (Hok : pool_ok (after_calls calls {| ConnectionPool := ∅; allocated := n |})).
  { apply after_calls_pool_ok, empty_pool_ok. }
  assert (Hown : own_names_ok
                   (after_calls calls {| ConnectionPool := ∅; allocated := n |})).
  { apply after_calls_own_names. intros key c H. simpl in H.
    rewrite lookup_empty in H. discriminate. }
  split; [ exact Hok | ].
  split.
  - intros cfg opts Hpool Hinh.
    apply getConnection_inherited; [ exact Hpool | | exact Hinh ].
    destruct (ConnectionPool (after_calls calls _) !! name cfg) as [c |] eqn:Hc;
      [ | reflexivity ].
    rewrite (Hown _ _ Hc) in Hinh. discriminate.
  - intros cfg opts c. apply getConnection_result_name, Hok.
Qed.

(** X12.  [connectionForConfig], which does not enable pooling, neither
    reads nor writes the pool: the pool, the lookup objects and the
    configurations stay as they are, and for a constructible configuration
    the result is a newly constructed object even when the pool holds a
    connection of that name. *)
Theorem connectionForConfig_bypasses_pool (cfg : ConnectionConfig) (s : State) :
  ConnectionPool (process (connectionForConfig isDuckDBAvailable cfg s).2)
  = ConnectionPool (process s) ∧
  heap (connectionForConfig isDuckDBAvailable cfg s).2 = heap s ∧
  connectionLookups (connectionForConfig isDuckDBAvailable cfg s).2
  = connectionLookups s ∧
  configs (connectionForConfig isDuckDBAvailable cfg s).2 = configs s ∧
  (ConnectionManager.constructible isDuckDBAvailable cfg →
   ∃ c, (connectionForConfig isDuckDBAvailable cfg s).1 = Resolved (Some c) ∧
        object_id c = allocated (process s) ∧
        (pool_ok (process s) →
         ∀ key c', ConnectionPool (process s) !! key = Some c' → c' ≠ c)).
Proof.
  unfold connectionForConfig.
  assert (Hmiss : pool_miss cfg default_options (process s)) by (intros H; discriminate H).
  destruct (backend cfg) as [ | | | tag] eqn:Hb.
  - rewrite (getConnection_bigquery _ _ _ _ Hb Hmiss). simpl.
    repeat split. intros _. eexists. split; [ reflexivity | ]. split; [ reflexivity | ].
    intros [Hentries _] key c' Hin ->. destruct (Hentries _ _ Hin) as [Hlt _].
    simpl in Hlt. lia.
  - rewrite (getConnection_postgres _ _ _ _ Hb Hmiss). simpl.
    repeat split. intros _. eexists. split; [ reflexivity | ]. split; [ reflexivity | ].
    intros [Hentries _] key c' Hin ->. destruct (Hentries _ _ Hin) as [Hlt _].
    simpl in Hlt. lia.
  - rewrite (getConnection_duckdb _ _ _ _ Hb Hmiss).
    destruct isDuckDBAvailable eqn:Hav; simpl.
    + repeat split. intros _. eexists. split; [ reflexivity | ]. split; [ reflexivity | ].
      intros [Hentries _] key c' Hin ->. destruct (Hentries _ _ Hin) as [Hlt _].
      simpl in Hlt. lia.
    + repeat split. intros [H | [H | [_ H]]]; congruence.
  - rewrite (getConnection_other _ _ _ _ _ Hb Hmiss). simpl.
    repeat split. intros [H | [H | [H _]]]; congruence.
Qed.

End WithBuild.

Lemma connectionForConfig_bypasses_pool_witness :
  ∃ c, (connectionForConfig true sample_a
          (new_ConnectionManager [sample_a] fresh_process)).1 = Resolved (Some c) ∧
       object_id c = 0%nat.
Proof.
  destruct (connectionForConfig_bypasses_pool true sample_a
              (new_ConnectionManager [sample_a] fresh_process))
    as (_ & _ & _ & _ & H).
  destruct H as (c & Hc & Hid & _); [ left; reflexivity | ].
  exists c. split; [ exact Hc | exact Hid ].
Defined.

Lemma pool_entries_match_their_names_witness :
  getConnectionForConfig true sample_constructor sample_pooled
    (after_calls true [(sample_a, sample_pooled)] fresh_process)
  = (Inherited "constructor",
     after_calls true [(sample_a, sample_pooled)] fresh_process) ∧
  connection_name
    (built {| object_id := 1; built := PostgresConnection "b" None sample_b |})
  = name sample_b.
Proof.
  destruct (pool_entries_match_their_names true [(sample_a, sample_pooled)] 0)
    as (_ & Hmember & Hname).
  split.
  - apply (Hmember sample_constructor sample_pooled); reflexivity.
  - exact (Hname sample_b sample_pooled _ eq_refl).
Defined.

(** X13.  Where DuckDB is not available, a lookup of a DuckDB configuration
    that misses the pool (with pooling, the pool has no entry for the
    name, and the name is not the name of a member of [Object.prototype])
    is rejected with "DuckDB is not available." and changes nothing; and
    no lookup whatsoever, after any sequence of lookups from an empty
    pool, resolves to a DuckDB connection. *)
Theorem no_duckdb_connection_when_unavailable :
  (∀ cfg opts p,
     backend cfg = DuckDB →
     (pooling opts = true →
      ConnectionPool p !! name cfg = None ∧ inherited_name (name cfg) = false) →
     getConnectionForConfig false cfg opts p
     = (Rejected (JsError "DuckDB is not available."), p)) ∧
  (∀ calls n cfg opts c,
     (getConnectionForConfig false cfg opts
        (ConnectionManager.after_calls false calls
           {| ConnectionPool := ∅; allocated := n |})).1
     = Resolved (Some c) →
     is_DuckDBConnection (built c) = false).
Proof.
  split.
  - intros cfg opts p Hb Hmiss.
    rewrite (getConnection_duckdb false cfg opts p Hb Hmiss). reflexivity.
  - intros calls n cfg opts c.
    pose proof (after_calls_pool_ok false calls _ (empty_pool_ok n)) as [Hentries _].
    set (p := ConnectionManager.after_calls false calls _) in *.
    destruct (pool_hit_or_miss cfg opts p)
      as [[Hpool [c0 Hc0]] | [[Hpool [Hnone Hinh]] | Hmiss]].
    + rewrite (getConnection_pooled _ _ _ _ _ Hpool Hc0). simpl.
      intros [= <-]. apply (Hentries _ _ Hc0).
    + rewrite (getConnection_inherited _ _ _ _ Hpool Hnone Hinh). discriminate.
    + destruct (backend cfg) as [ | | | tag] eqn:Hb.
      * rewrite (getConnection_bigquery _ _ _ _ Hb Hmiss). simpl. intros [= <-]. reflexivity.
      * rewrite (getConnection_postgres _ _ _ _ Hb Hmiss). simpl. intros [= <-]. reflexivity.
      * rewrite (getConnection_duckdb _ _ _ _ Hb Hmiss). discriminate.
      * rewrite (getConnection_other _ _ _ _ _ Hb Hmiss). discriminate.
Qed.

Lemma no_duckdb_connection_when_unavailable_witness :
  getConnectionForConfig false default_duckdb sample_pooled fresh_process
  = (Rejected (JsError "DuckDB is not available."), fresh_process).
Proof.
  destruct no_duckdb_connection_when_unavailable as [H _].
  apply H; [ reflexivity | intros _; split; reflexivity ].
Defined.

(** ** Lookup objects *)

Section WithManager.

Variable isDuckDBAvailable : bool.
Variable path_dirname : string → string.

#[local] Abbreviation lookup_for := (getConnectionLookup path_dirname).
#[local] Abbreviation lookup_at := (lookupConnection_at isDuckDBAvailable).

Lemma fresh_ref_unused (h : gmap nat DynamicConnectionLookup) :
  h !! fresh_ref h = None.
Proof. unfold fresh_ref. apply not_elem_of_dom. apply is_fresh. Qed.

Lemma getConnectionLookup_ok (url : URL) (s : State) :
  lookups_ok s → lookups_ok (lookup_for url s).2.
Proof.
  intros [Hheap Hinj]. unfold getConnectionLookup.
  destruct (connectionLookups s !! path_dirname (pathname url)) as [r |] eqn:Hr;
    [ split; assumption | ].
  pose proof (fresh_ref_unused (heap s)) as Hfresh.
  split; simpl.
  - intros wd r'. rewrite lookup_insert. case_decide as Hwd.
    + intros [= <-]. rewrite lookup_insert_eq. eauto.
    + intros Hin. destruct (Hheap _ _ Hin) as [x Hx].
      rewrite lookup_insert_ne; [ eauto | ]. intros <-. congruence.
  - intros wd1 wd2 r'. rewrite !lookup_insert.
    case_decide as H1; case_decide as H2.
    + congruence.
    + intros [= <-] Hin. destruct (Hheap _ _ Hin) as [x Hx]. congruence.
    + intros Hin [= <-]. destruct (Hheap _ _ Hin) as [x Hx]. congruence.
    + apply Hinj.
Qed.

Lemma setConnectionsConfig_ok (l : list ConnectionConfig) (s : State) :
  lookups_ok (setConnectionsConfig l s).
Proof.
  split; simpl; intros ? ?; [ | intros ? ]; rewrite lookup_empty; discriminate.
Qed.

Lemma lookupConnection_at_ok (r : nat) (connectionName : option string)
    (s s' : State) (promise : Outcome (option Connection)) :
  lookups_ok s →
  lookup_at r connectionName s = Some (promise, s') →
  lookups_ok s'.
Proof.
  intros [Hheap Hinj]. unfold lookupConnection_at.
  destruct (heap s !! r) as [this |] eqn:Hthis; [ | discriminate ].
  destruct (lookupConnection isDuckDBAvailable connectionName (configs s) this
              (process s)) as [[o this1] p1].
  intros [= <- <-]. split; simpl; [ | exact Hinj ].
  intros wd r' Hin. rewrite lookup_insert. case_decide; [ eauto | apply (Hheap _ _ Hin) ].
Qed.

(** X14.  The manager keeps one lookup object per directory: asking for the
    lookup object of a second document in the same directory returns the
    same object and changes nothing, and documents in different
    directories get different lookup objects. *)
Theorem lookup_objects_are_per_directory (url1 url2 : URL) (s : State) :
  (path_dirname (pathname url1) = path_dirname (pathname url2) →
   lookup_for url2 (lookup_for url1 s).2
   = ((lookup_for url1 s).1, (lookup_for url1 s).2)) ∧
  (lookups_ok s →
   path_dirname (pathname url1) ≠ path_dirname (pathname url2) →
   (lookup_for url2 (lookup_for url1 s).2).1 ≠ (lookup_for url1 s).1).
Proof.
  pose proof (getConnectionLookup_registered path_dirname url1 s) as Hreg.
  split.
  - intros Hsame. unfold getConnectionLookup at 1. rewrite <- Hsame, Hreg. reflexivity.
  - intros Hok Hdiff.
    destruct (getConnectionLookup_ok url1 s Hok) as [Hheap Hinj].
    destruct (lookup_for url1 s) as [r1 s1]. simpl in *.
    unfold getConnectionLookup.
    destruct (connectionLookups s1 !! path_dirname (pathname url2)) as [r2 |] eqn:Hr2;
      simpl.
    + intros ->. apply Hdiff. apply (Hinj _ _ _ Hreg Hr2).
    + intros Heq. destruct (Hheap _ _ Hreg) as [x Hx].
      pose proof (fresh_ref_unused (heap s1)) as Hfresh.
      congruence.
Qed.


(** X16.  [setConnectionsConfig] does not reach the lookup objects handed
    out before: such an object still answers a name it has resolved with
    the promise it holds, that is, with the old connection object. *)
Theorem held_lookup_object_keeps_its_connections (l : list ConnectionConfig)
    (s : State) (r : nat) (this : DynamicConnectionLookup)
    (connectionName : option string) (promise : Outcome (option Connection)) :
  heap s !! r = Some this →
  connections this !! connectionKey connectionName = Some promise →
  ∃ s', lookup_at r connectionName (setConnectionsConfig l s) = Some (promise, s') ∧
        process s' = process (setConnectionsConfig l s) ∧
        heap s' !! r = Some this.
Proof.
  intros Hthis Hcached. unfold lookupConnection_at. simpl. rewrite Hthis.
  unfold lookupConnection. rewrite Hcached.
  eexists. split; [ reflexivity | ]. simpl.
  split; [ reflexivity | apply lookup_insert_eq ].
Qed.

End WithManager.

Lemma new_ConnectionManager_ok (l : list ConnectionConfig) (p : Process) :
  lookups_ok (new_ConnectionManager l p).
Proof.
  split; simpl; intros ? ?; [ | intros ? ]; rewrite lookup_empty; discriminate.
Qed.

Lemma lookup_objects_are_per_directory_witness :
  (getConnectionLookup sample_dirname airports_url
     (getConnectionLookup sample_dirname flights_url
        (new_ConnectionManager [sample_a] fresh_process)).2).1
  = (getConnectionLookup sample_dirname flights_url
       (new_ConnectionManager [sample_a] fresh_process)).1 ∧
  (getConnectionLookup sample_dirname other_url
     (getConnectionLookup sample_dirname flights_url
        (new_ConnectionManager [sample_a] fresh_process)).2).1
  ≠ (getConnectionLookup sample_dirname flights_url
       (new_ConnectionManager [sample_a] fresh_process)).1.
Proof.
  split.
  - destruct (lookup_objects_are_per_directory sample_dirname flights_url airports_url
                (new_ConnectionManager [sample_a] fresh_process)) as [Hsame _].
    rewrite Hsame; reflexivity.
  - destruct (lookup_objects_are_per_directory sample_dirname flights_url other_url
                (new_ConnectionManager [sample_a] fresh_process)) as [_ Hdiff].
    apply Hdiff; [ apply new_ConnectionManager_ok | discriminate ].
Defined.


Lemma held_lookup_object_keeps_its_connections_witness :
  ∃ s', lookupConnection_at true 0 (Some "a") (setConnectionsConfig [sample_b] held_state)
        = Some (Resolved (Some held_connection), s').
Proof.
  destruct (held_lookup_object_keeps_its_connections true [sample_b] held_state 0
              {| connections := {[ Some "a" := Resolved (Some held_connection) ]};
                 options := options sample_lookup |}
              (Some "a") (Resolved (Some held_connection)))
    as (s' & H & _); [ reflexivity | reflexivity | ].
  exists s'. exact H.
Defined.

End ConnectionManagerMore.

(** * More on the materializers *)
Module CreateRunnableMore.
Import CreateRunnable CreateRunnableProofs.

Section WithRuntime.

Context {Runtime : Type}.
Variable new_URL : string → option URL.

#[local] Abbreviation parse_all := (CreateRunnable.parse_all new_URL).

Lemma load_cells_malloy_only (runtime : Runtime) (base : URL)
    (refresh : RefreshSchemaCache) (cellList : list Cell)
    (mm : option (ModelMaterializer Runtime)) :
  load_cells new_URL runtime base refresh cellList mm
  = load_cells new_URL runtime base refresh (malloy_cells cellList) mm.
Proof.
  revert mm. induction cellList as [| cell rest IH]; intros mm; [ reflexivity | ].
  unfold malloy_cells. simpl. fold (is_malloy cell). fold (malloy_cells rest).
  destruct (is_malloy cell) eqn:Hm; [ | apply IH ].
  simpl. fold (is_malloy cell). rewrite Hm.
  destruct (new_URL (uri cell)); [ apply IH | reflexivity ].
Qed.

(** X17.  Only the Malloy cells of a notebook matter: the result, failures
    included, is the one obtained from the notebook with every other cell
    removed.  In particular the URI of a cell in another language is never
    handed to the URL constructor. *)
Theorem only_malloy_cells_matter (documentUri : string) (runtime : Runtime)
    (cellData : CellData) (refresh : RefreshSchemaCache) (now : Z) :
  createModelMaterializer new_URL documentUri runtime (Some cellData) refresh now
  = createModelMaterializer new_URL documentUri runtime
      (Some {| baseUri := baseUri cellData;
               cells := malloy_cells (cells cellData) |}) refresh now.
Proof.
  unfold createModelMaterializer. simpl.
  destruct (new_URL documentUri); [ | reflexivity ].
  destruct (new_URL (baseUri cellData)); [ | reflexivity ].
  apply load_cells_malloy_only.
Qed.

Lemma parse_all_none (cellList : list Cell) :
  parse_all cellList = None ↔ Exists (λ cell, new_URL (uri cell) = None) cellList.
Proof.
  induction cellList as [| cell rest IH]; simpl.
  - split; [ discriminate | intros H; inversion H ].
  - destruct (new_URL (uri cell)) as [url |] eqn:Hurl.
    + destruct (CreateRunnable.parse_all new_URL rest) as [urls |].
      * split; [ discriminate | ]. intros H. inversion H as [? ? Hh | ? ? Ht]; subst.
        -- congruence.
        -- apply IH in Ht. discriminate.
      * split; [ | reflexivity ]. intros _. right. apply IH. reflexivity.
    + split; [ | reflexivity ]. intros _. left. exact Hurl.
Qed.

(** X18.  [createModelMaterializer] fails exactly when the URL constructor
    rejects the document URI (also with cell data, where that URL is not
    used), or, with cell data, the base URI or the URI of some Malloy
    cell; the failure is then the constructor's. *)
Theorem createModelMaterializer_fails_on_bad_uri (documentUri : string)
    (runtime : Runtime) (cellData : option CellData)
    (refresh : RefreshSchemaCache) (now : Z) :
  (createModelMaterializer new_URL documentUri runtime cellData refresh now
   = Rejected invalid_URL
   ↔ new_URL documentUri = None ∨
     ∃ data, cellData = Some data ∧
             (new_URL (baseUri data) = None ∨
              Exists (λ cell, new_URL (uri cell) = None) (malloy_cells (cells data)))) ∧
  (∀ e, createModelMaterializer new_URL documentUri runtime cellData refresh now
        = Rejected e → e = invalid_URL).
Proof.
  split; [ | intros e; apply createModelMaterializer_rejected ].
  unfold createModelMaterializer.
  destruct (new_URL documentUri) as [documentURL |] eqn:Hdoc;
    [ | split; [ left; reflexivity | reflexivity ] ].
  destruct cellData as [data |].
  - destruct (new_URL (baseUri data)) as [base |] eqn:Hbase.
    + destruct (CreateRunnable.parse_all new_URL (malloy_cells (cells data)))
        as [urls |] eqn:Hparse.
      * rewrite (load_cells_parsed _ _ _ _ _ urls None Hparse).
        split; [ discriminate | ].
        intros [H | (data' & [= <-] & [H | H])]; [ discriminate | congruence | ].
        apply parse_all_none in H. congruence.
      * rewrite (load_cells_unparsed _ _ _ _ _ None Hparse).
        split; [ | reflexivity ]. intros _. right. exists data.
        split; [ reflexivity | right; apply parse_all_none, Hparse ].
    + split; [ | reflexivity ]. intros _. right. exists data.
      split; [ reflexivity | left; exact Hbase ].
  - split; [ discriminate | ].
    intros [H | (data & H & _)]; discriminate.
Qed.

Lemma options_used_accumulated (runtime : Runtime) (options : LoadOptions)
    (urls : list URL) (mm : ModelMaterializer Runtime) :
  accumulated runtime options urls = Some mm →
  options_used mm = replicate (length urls) options.
Proof.
  destruct urls as [| url rest]; [ discriminate | ].
  intros [= <-]. rewrite options_used_extended. simpl. f_equal.
  induction rest as [| u rest IH]; simpl; [ reflexivity | f_equal; exact IH ].
Qed.

(** What a resolved model has been built from. *)
Lemma createModelMaterializer_resolved (documentUri : string) (runtime : Runtime)
    (cellData : CellData) (refresh : RefreshSchemaCache) (now : Z)
    (mm : ModelMaterializer Runtime) :
  createModelMaterializer new_URL documentUri runtime (Some cellData) refresh now
  = Resolved (Some mm) →
  ∃ base urls,
    new_URL (baseUri cellData) = Some base ∧
    parse_all (malloy_cells (cells cellData)) = Some urls ∧
    accumulated runtime {| importBaseURL := Some base;
                           refreshSchemaCache := normalized refresh now |} urls
    = Some mm.
Proof.
  unfold createModelMaterializer.
  destruct (new_URL documentUri) as [documentURL |]; [ | discriminate ].
  destruct (new_URL (baseUri cellData)) as [base |]; [ | discriminate ].
  rewrite normalize_refresh.
  destruct (CreateRunnable.parse_all new_URL (malloy_cells (cells cellData)))
    as [urls |] eqn:Hparse.
  - rewrite (load_cells_parsed _ _ _ _ _ urls None Hparse).
    intros [= Hacc]. exists base, urls. repeat split; assumption.
  - rewrite (load_cells_unparsed _ _ _ _ _ None Hparse). discriminate.
Qed.

(** X19.  A model resolved from cell data has been built by as many
    [loadModel]/[extendModel] calls as the notebook has Malloy cells, each
    of them with the same options: the notebook's base URL as
    [importBaseURL] and the one normalized flag. *)
Theorem one_call_per_malloy_cell (documentUri : string) (runtime : Runtime)
    (cellData : CellData) (refresh : RefreshSchemaCache) (now : Z)
    (mm : ModelMaterializer Runtime) :
  createModelMaterializer new_URL documentUri runtime (Some cellData) refresh now
  = Resolved (Some mm) →
  ∃ base,
    new_URL (baseUri cellData) = Some base ∧
    options_used mm
    = replicate (length (malloy_cells (cells cellData)))
        {| importBaseURL := Some base;
           refreshSchemaCache := normalized refresh now |}.
Proof.
  intros Hres.
  destruct (createModelMaterializer_resolved _ _ _ _ _ _ Hres)
    as (base & urls & Hbase & Hparse & Hacc).
  exists base. split; [ exact Hbase | ].
  rewrite (options_used_accumulated _ _ _ _ Hacc).
  pose proof (parse_all_Forall2 new_URL _ _ (malloy_cells_Forall _) Hparse) as Hurls.
  rewrite (Forall2_length _ _ _ Hurls). reflexivity.
Qed.

Lemma createModelMaterializer_clock (documentUri : string) (runtime : Runtime)
    (cellData : option CellData) (refresh : RefreshSchemaCache) (now now' : Z) :
  refresh ≠ Flag true →
  createModelMaterializer new_URL documentUri runtime cellData refresh now
  = createModelMaterializer new_URL documentUri runtime cellData refresh now'.
Proof.
  intros Hne. unfold createModelMaterializer.
  rewrite !normalize_refresh.
  destruct refresh as [| [|] | n]; try reflexivity. congruence.
Qed.

(** X20.  [createRunnable] never asks for a schema-cache refresh and never
    depends on the clock: its result is the same at any time, and every
    [loadModel]/[extendModel] call behind the runnable it returns has been
    made with the flag omitted. *)
Theorem createRunnable_uses_the_cache (query : WorkerQuerySpec) (runtime : Runtime)
    (cellData : option CellData) (now : Z) :
  (∀ now', createRunnable new_URL query runtime cellData now'
           = createRunnable new_URL query runtime cellData now) ∧
  (∀ runnable options,
     createRunnable new_URL query runtime cellData now = Resolved runnable →
     options ∈ options_used (model_of runnable) →
     refreshSchemaCache options = Omitted).
Proof.
  split.
  - intros now'. unfold createRunnable.
    rewrite (createModelMaterializer_clock _ _ _ Omitted now' now); [ reflexivity | discriminate ].
  - intros runnable options Hres Hin.
    unfold createRunnable in Hres.
    destruct (createModelMaterializer new_URL (query_uri query) runtime cellData
                Omitted now) as [[mm |] | e] eqn:Hm; try discriminate.
    assert (Hmodel : model_of runnable = mm).
    { repeat (destruct (String.eqb (query_type query) _));
        try destruct (query_index query =? -1);
        try discriminate; injection Hres as <-; reflexivity. }
    rewrite Hmodel in Hin. clear Hres Hmodel.
    destruct cellData as [data |].
    + destruct (createModelMaterializer_resolved _ _ _ _ _ _ Hm)
        as (base & urls & _ & _ & Hacc).
      rewrite (options_used_accumulated _ _ _ _ Hacc) in Hin.
      apply elem_of_replicate in Hin as [-> _]. reflexivity.
    + unfold createModelMaterializer in Hm.
      destruct (new_URL (query_uri query)); [ | discriminate ].
      injection Hm as <-. simpl in Hin.
      apply list_elem_of_singleton in Hin. subst. reflexivity.
Qed.

(** X21.  [createRunnable] fails with "Missing model definition" exactly
    when it is given cell data without any Malloy cell (the document URI
    and the base URI being accepted by the URL constructor), whatever the
    type tag of the query; without cell data it never does. *)
Theorem missing_model_means_no_malloy_cell (query : WorkerQuerySpec)
    (runtime : Runtime) (cellData : option CellData) (now : Z) :
  createRunnable new_URL query runtime cellData now
  = Rejected (JsError "Missing model definition")
  ↔ ∃ data, cellData = Some data ∧ malloy_cells (cells data) = [] ∧
            is_Some (new_URL (query_uri query)) ∧
            is_Some (new_URL (baseUri data)).
Proof.
  split.
  - intros Hres. unfold createRunnable in Hres.
    destruct (createModelMaterializer new_URL (query_uri query) runtime cellData
                Omitted now) as [[mm |] | e] eqn:Hm.
    + exfalso. revert Hres.
      repeat (destruct (String.eqb (query_type query) _));
        try destruct (query_index query =? -1); discriminate.
    + unfold createModelMaterializer in Hm.
      destruct (new_URL (query_uri query)) as [documentURL |] eqn:Hdoc; [ | discriminate ].
      destruct cellData as [data |]; [ | discriminate ].
      destruct (new_URL (baseUri data)) as [base |] eqn:Hbase; [ | discriminate ].
      exists data. split; [ reflexivity | ].
      split; [ | split; eauto ].
      destruct (CreateRunnable.parse_all new_URL (malloy_cells (cells data)))
        as [urls |] eqn:Hparse.
      * rewrite (load_cells_parsed _ _ _ _ _ urls None Hparse) in Hm.
        pose proof (parse_all_Forall2 new_URL _ _ (malloy_cells_Forall _) Hparse) as Hurls.
        destruct urls as [| url rest]; [ | discriminate ].
        inversion Hurls. reflexivity.
      * rewrite (load_cells_unparsed _ _ _ _ _ None Hparse) in Hm. discriminate.
    + pose proof (createModelMaterializer_rejected _ _ _ _ _ _ _ Hm) as ->.
      discriminate.
  - intros (data & -> & Hnone & [documentURL Hdoc] & [base Hbase]).
    unfold createRunnable.
    rewrite (createModelMaterializer_cells new_URL _ runtime data Omitted now
               documentURL base [] Hdoc Hbase); [ reflexivity | ].
    rewrite Hnone. reflexivity.
Qed.

End WithRuntime.

(** ** Concrete runs *)

Lemma createModelMaterializer_fails_on_bad_uri_witness :
  createModelMaterializer sample_new_URL "" tt (Some sample_cells) Omitted 0
  = Rejected invalid_URL.
Proof.
  destruct (createModelMaterializer_fails_on_bad_uri sample_new_URL "" tt
              (Some sample_cells) Omitted 0) as [H _].
  apply H. left. reflexivity.
Defined.

Lemma one_call_per_malloy_cell_witness :
  ∃ base,
    sample_new_URL (baseUri sample_cells) = Some base ∧
    options_used
      (extendModel (loadModel tt (sample_URL "a") (sample_options Omitted))
         (sample_URL "c") (sample_options Omitted))
    = replicate 2 {| importBaseURL := Some base; refreshSchemaCache := Omitted |}.
Proof.
  exact (one_call_per_malloy_cell sample_new_URL "file:///nb/q.malloynb" tt
           sample_cells Omitted 0 _ eq_refl).
Defined.

Lemma createRunnable_uses_the_cache_witness :
  createRunnable sample_new_URL sample_final_query tt (Some sample_cells) 1700000000000
  = createRunnable sample_new_URL sample_final_query tt (Some sample_cells) 0 ∧
  refreshSchemaCache (sample_options Omitted) = Omitted.
Proof.
  destruct (createRunnable_uses_the_cache sample_new_URL sample_final_query tt
              (Some sample_cells) 0) as [Hclock Hflag].
  split; [ apply Hclock | ].
  apply (Hflag _ (sample_options Omitted) eq_refl). simpl. left.
Defined.

Lemma missing_model_means_no_malloy_cell_witness :
  createRunnable sample_new_URL sample_unknown_query tt (Some sample_text_cells) 0
  = Rejected (JsError "Missing model definition").
Proof.
  apply missing_model_means_no_malloy_cell.
  exists sample_text_cells. split; [ reflexivity | ].
  split; [ reflexivity | ]. split; eexists; reflexivity.
Defined.

End CreateRunnableMore.

(** * More on the connection save hook *)
Module EditConnectionsMore.
Import EditConnections EditConnectionsProofs.

(** ** Strings *)

Lemma string_app_length (a b : string) :
  String.length (a +:+ b) = (String.length a + String.length b)%nat.
Proof.
  induction a as [| c a IH]; [ reflexivity | ].
  change (String c a +:+ b) with (String c (a +:+ b)). simpl. rewrite IH. reflexivity.
Qed.

Lemma string_app_inj_suffix (a b s : string) : a +:+ s = b +:+ s → a = b.
Proof.
  revert b. induction a as [| c a IH]; intros [| c' b] H.
  - reflexivity.
  - apply (f_equal String.length) in H. rewrite !string_app_length in H.
    simpl in H. lia.
  - apply (f_equal String.length) in H. rewrite !string_app_length in H.
    simpl in H. lia.
  - change (String c (a +:+ s) = String c' (b +:+ s)) in H.
    injection H as -> H. f_equal. apply IH, H.
Qed.

(** Different connections have different keychain accounts. *)
Lemma keychain_account_inj (a b : string) :
  keychain_account a = keychain_account b → a = b.
Proof.
  unfold keychain_account. intros H.
  apply (String.app_inj "connections.") in H.
  apply (string_app_inj_suffix _ _ _ H).
Qed.

(** ** The keytar calls *)

Lemma preSave_iteration_calls (defaultIndex : option nat) (index : nat)
    (c : ConnectionConfig) (acc : PreSave) :
  keytar (preSave_iteration defaultIndex index c acc) = keytar acc ++ keytar_calls_of c.
Proof.
  unfold preSave_iteration, keytar_calls_of.
  destruct (password c) as [| [pw |]] eqn:Hp; simpl; rewrite ?Hp; simpl.
  - destruct (truthy_bool (isGenerated c)); simpl; rewrite app_nil_r; reflexivity.
  - destruct (is_false (useKeychainPassword c)); simpl; rewrite ?Hp; simpl;
      destruct (String.eqb pw ""); simpl; rewrite <- ?app_assoc, ?app_nil_r; reflexivity.
  - destruct (is_false (useKeychainPassword c)); simpl; rewrite ?Hp; simpl;
      rewrite ?app_nil_r; reflexivity.
Qed.

Lemma preSave_loop_calls (defaultIndex : option nat) (l : list ConnectionConfig)
    (index : nat) (acc : PreSave) :
  keytar (preSave_loop defaultIndex index l acc)
  = keytar acc ++ List.flat_map keytar_calls_of l.
Proof.
  revert index acc. induction l as [| c rest IH]; intros index acc; simpl.
  - rewrite app_nil_r. reflexivity.
  - rewrite IH, preSave_iteration_calls, <- app_assoc. reflexivity.
Qed.

Section WithDefaultIndex.

Variable getDefaultIndex : list ConnectionConfig → option nat.

(** X22.  The keytar calls of a save are, connection by connection in list
    order, the deletion of the stored password where the connection has a
    password field and [useKeychainPassword] is [false], followed by the
    write of the password where it is not empty; a connection without a
    password field causes no keytar call. *)
Theorem keytar_calls_per_connection (l : list ConnectionConfig) :
  keytar (handleConnectionsPreSave getDefaultIndex l)
  = List.flat_map keytar_calls_of l ∧
  ∀ c, has_property (password c) = false → keytar_calls_of c = [].
Proof.
  split.
  - unfold handleConnectionsPreSave. rewrite preSave_loop_calls. reflexivity.
  - intros c Hno. unfold keytar_calls_of.
    destruct (password c); [ reflexivity | discriminate ].
Qed.

End WithDefaultIndex.

Lemma keytar_calls_per_connection_witness :
  keytar (handleConnectionsPreSave sample_getDefaultIndex sample_list)
  = [ deletePassword "com.malloy-lang.vscode-extension" "connections.id-pg.password";
      setPassword "com.malloy-lang.vscode-extension" "connections.id-pg.password" "secret" ] ∧
  keytar_calls_of generated_duckdb = [].
Proof.
  destruct (keytar_calls_per_connection sample_getDefaultIndex sample_list) as [H1 H2].
  split; [ rewrite H1; reflexivity | apply H2; reflexivity ].
Defined.

(** ** The keychain after a save *)

Lemma keychain_after_app (calls1 calls2 : list KeytarCall) (keychain : Keychain) :
  keychain_after (calls1 ++ calls2) keychain
  = keychain_after calls2 (keychain_after calls1 keychain).
Proof. unfold keychain_after. apply fold_left_app. Qed.

Lemma keychain_after_other (x : ConnectionConfig) (account : string)
    (keychain : Keychain) :
  account ≠ keychain_account (id x) →
  keychain_after (keytar_calls_of x) keychain !! (keychain_service, account)
  = keychain !! (keychain_service, account).
Proof.
  intros Hne. unfold keytar_calls_of, keychain_after.
  assert (Hpair : (keychain_service, keychain_account (id x))
                  ≠ (keychain_service, account)) by congruence.
  destruct (has_property (password x) && is_false (useKeychainPassword x));
    destruct (truthy_string (read (password x)));
    destruct (read (password x)) as [pw |]; simpl;
    rewrite ?lookup_insert_ne, ?lookup_delete_ne by exact Hpair; reflexivity.
Qed.

Lemma keychain_after_self (c : ConnectionConfig) (pw : string) (keychain : Keychain) :
  read (password c) = Some pw → pw ≠ "" →
  keychain_after (keytar_calls_of c) keychain
    !! (keychain_service, keychain_account (id c)) = Some pw.
Proof.
  intros Hp Hne. unfold keytar_calls_of, keychain_after. rewrite Hp.
  unfold truthy_string. destruct (String.eqb_spec pw ""); [ contradiction | ].
  destruct (has_property (password c) && is_false (useKeychainPassword c)); simpl;
    apply lookup_insert_eq.
Qed.

Lemma keychain_after_others (rest : list ConnectionConfig) (account : string)
    (keychain : Keychain) :
  (∀ x, In x rest → account ≠ keychain_account (id x)) →
  keychain_after (List.flat_map keytar_calls_of rest) keychain
    !! (keychain_service, account)
  = keychain !! (keychain_service, account).
Proof.
  revert keychain. induction rest as [| x rest IH]; intros keychain Hne; [ reflexivity | ].
  simpl. rewrite keychain_after_app, IH.
  - apply keychain_after_other, Hne. left. reflexivity.
  - intros y Hy. apply Hne. right. exact Hy.
Qed.

Lemma keychain_after_save (l : list ConnectionConfig) (i : nat)
    (c : ConnectionConfig) (pw : string) (keychain : Keychain) :
  NoDup (List.map id l) →
  l !! i = Some c → read (password c) = Some pw → pw ≠ "" →
  keychain_after (List.flat_map keytar_calls_of l) keychain
    !! (keychain_service, keychain_account (id c)) = Some pw.
Proof.
  revert i keychain. induction l as [| x rest IH]; intros i keychain Hnd Hl Hp Hne;
    [ discriminate | ].
  simpl in Hnd. apply NoDup_cons in Hnd as [Hnotin Hnd].
  simpl. rewrite keychain_after_app.
  destruct i as [| i]; simpl in Hl.
  - injection Hl as ->. rewrite keychain_after_others.
    + apply (keychain_after_self c pw _ Hp Hne).
    + intros y Hy Heq. apply keychain_account_inj in Heq.
      apply Hnotin. rewrite Heq. apply list_elem_of_In, in_map, Hy.
  - apply (IH i _ Hnd Hl Hp Hne).
Qed.

Section WithDefaultIndexAgain.

Variable getDefaultIndex : list ConnectionConfig → option nat.

(** X23.  Save, then read back: when the connections have pairwise
    different ids, the keychain left by the save holds every non-empty
    password under its connection's account, and the Postgres credential
    reader, given the scrubbed copy that the save returned, finds that
    password again. *)
Theorem saved_password_is_read_back (l : list ConnectionConfig) (i : nat)
    (c : ConnectionConfig) (pw : string) (keychain : Keychain) :
  NoDup (List.map id l) →
  l !! i = Some c → read (password c) = Some pw → pw ≠ "" →
  keychain_after (keytar (handleConnectionsPreSave getDefaultIndex l)) keychain
    !! (keychain_service, keychain_account (id c)) = Some pw ∧
  scrubbed (set_isDefault (is_index i (getDefaultIndex l)) c)
    ∈ modifiedConnections (handleConnectionsPreSave getDefaultIndex l) ∧
  ConnectionManager.pg_password
    (ConnectionManager.configReader
       (scrubbed (set_isDefault (is_index i (getDefaultIndex l)) c))
       (keychain_after (keytar (handleConnectionsPreSave getDefaultIndex l)) keychain))
  = Some pw.
Proof.
  intros Hnd Hl Hp Hne.
  assert (Hkc : keychain_after (keytar (handleConnectionsPreSave getDefaultIndex l))
                  keychain !! (keychain_service, keychain_account (id c)) = Some pw).
  { unfold handleConnectionsPreSave. rewrite preSave_loop_calls. simpl.
    apply (keychain_after_save l i c pw keychain Hnd Hl Hp Hne). }
  split; [ exact Hkc | ]. split.
  - unfold handleConnectionsPreSave. rewrite preSave_loop_modified. simpl.
    apply (returned_from_lookup _ _ 0 i c _ Hl).
    unfold kept. destruct (password c) as [| v]; [ discriminate | ].
    simpl in *. subst v. simpl.
    destruct (String.eqb_spec pw ""); [ contradiction | reflexivity ].
  - unfold ConnectionManager.configReader. simpl. rewrite Hkc.
    unfold ConnectionManager.or_undefined, truthy_string.
    destruct (String.eqb_spec pw ""); [ contradiction | reflexivity ].
Qed.

End WithDefaultIndexAgain.

Lemma saved_password_is_read_back_witness :
  ConnectionManager.pg_password
    (ConnectionManager.configReader (scrubbed with_password)
       (keychain_after (keytar (handleConnectionsPreSave sample_getDefaultIndex sample_list))
          ∅))
  = Some "secret".
Proof.
  destruct (saved_password_is_read_back sample_getDefaultIndex sample_list 0
              with_password "secret" ∅) as (_ & _ & H);
    [ | reflexivity | reflexivity | discriminate | exact H ].
  apply NoDup_ListNoDup. repeat constructor; simpl; intuition discriminate.
Defined.

(** ** The default flag, the order and the input objects *)

Lemma kept_fields (defaultIndex : option nat) (index : nat) (c c' : ConnectionConfig) :
  kept defaultIndex index c = Some c' →
  isDefault c' = Some (is_index index defaultIndex) ∧ id c' = id c ∧ name c' = name c.
Proof.
  unfold kept. destruct (has_property (password c)).
  - destruct (truthy_string (read (password c))); [ | discriminate ].
    intros [= <-]. repeat split.
  - destruct (truthy_bool (isGenerated c)); [ discriminate | ].
    intros [= <-]. repeat split.
Qed.

(** From an index past the default one on, nothing returned is flagged. *)
Lemma returned_from_no_default (defaultIndex : option nat) (l : list ConnectionConfig)
    (start : nat) :
  (∀ k, defaultIndex = Some k → (k < start)%nat) →
  List.filter ConnectionManager.is_default (returned_from defaultIndex start l) = [].
Proof.
  revert start. induction l as [| c rest IH]; intros start Hlt; [ reflexivity | ].
  simpl. assert (Hrest : List.filter ConnectionManager.is_default
                           (returned_from defaultIndex (S start) rest) = []).
  { apply IH. intros k Hk. specialize (Hlt k Hk). lia. }
  destruct (kept defaultIndex start c) as [c' |] eqn:Hk; [ | exact Hrest ].
  simpl. destruct (kept_fields _ _ _ _ Hk) as (Hd & _).
  unfold ConnectionManager.is_default at 1. rewrite Hd.
  assert (Hidx : is_index start defaultIndex = false).
  { unfold is_index. destruct defaultIndex as [k |]; [ | reflexivity ].
    apply Nat.eqb_neq. specialize (Hlt k eq_refl). lia. }
  rewrite Hidx. exact Hrest.
Qed.

Lemma returned_from_one_default (defaultIndex : option nat) (l : list ConnectionConfig)
    (start : nat) :
  (length (List.filter ConnectionManager.is_default
             (returned_from defaultIndex start l)) ≤ 1)%nat.
Proof.
  revert start. induction l as [| c rest IH]; intros start; simpl; [ lia | ].
  destruct (kept defaultIndex start c) as [c' |] eqn:Hk; [ | apply IH ].
  simpl. destruct (kept_fields _ _ _ _ Hk) as (Hd & _).
  unfold ConnectionManager.is_default at 1. rewrite Hd.
  destruct (is_index start defaultIndex) eqn:Hidx; simpl; [ | apply IH ].
  rewrite returned_from_no_default; [ simpl; lia | ].
  intros k ->. simpl in Hidx. apply Nat.eqb_eq in Hidx. lia.
Qed.

Lemma returned_from_ids (defaultIndex : option nat) (l : list ConnectionConfig)
    (start : nat) :
  List.map id (returned_from defaultIndex start l) `sublist_of` List.map id l.
Proof.
  revert start. induction l as [| c rest IH]; intros start; simpl; [ constructor | ].
  destruct (kept defaultIndex start c) as [c' |] eqn:Hk.
  - simpl. destruct (kept_fields _ _ _ _ Hk) as (_ & -> & _).
    apply sublist_skip, IH.
  - apply sublist_cons, IH.
Qed.

Lemma preSave_iteration_mutated (defaultIndex : option nat) (index : nat)
    (c : ConnectionConfig) (acc : PreSave) :
  ∃ c', mutated (preSave_iteration defaultIndex index c acc) = mutated acc ++ [c'] ∧
        same_but_flags c c' ∧
        isDefault c' = Some (is_index index defaultIndex).
Proof.
  unfold preSave_iteration.
  destruct (password c) as [| [pw |]] eqn:Hp; simpl; rewrite ?Hp; simpl.
  - destruct (truthy_bool (isGenerated c)); simpl; eexists;
      (split; [ reflexivity | ]); (split; [ | reflexivity ]);
      unfold same_but_flags; simpl; repeat split.
  - destruct (is_false (useKeychainPassword c)); simpl; rewrite ?Hp; simpl;
      destruct (String.eqb pw ""); simpl; eexists;
      (split; [ reflexivity | ]); (split; [ | reflexivity ]);
      unfold same_but_flags; simpl; repeat split.
  - destruct (is_false (useKeychainPassword c)); simpl; rewrite ?Hp; simpl; eexists;
      (split; [ reflexivity | ]); (split; [ | reflexivity ]);
      unfold same_but_flags; simpl; repeat split.
Qed.

Lemma preSave_loop_mutated (defaultIndex : option nat) (l : list ConnectionConfig)
    (index : nat) (acc : PreSave) :
  ∃ l', mutated (preSave_loop defaultIndex index l acc) = mutated acc ++ l' ∧
        Forall2 same_but_flags l l'.
Proof.
  revert index acc. induction l as [| c rest IH]; intros index acc; simpl.
  - exists []. split; [ rewrite app_nil_r; reflexivity | constructor ].
  - destruct (preSave_iteration_mutated defaultIndex index c acc) as (c' & Hm & Hs & _).
    destruct (IH (S index) (preSave_iteration defaultIndex index c acc))
      as (l' & Hl & Hall).
    exists (c' :: l'). split; [ | constructor; assumption ].
    rewrite Hl, Hm, <- app_assoc. reflexivity.
Qed.

Section WithDefaultIndexOnceMore.

Variable getDefaultIndex : list ConnectionConfig → option nat.

(** X24.  The save leaves at most one returned connection flagged as
    default, and none where [getDefaultIndex] gives no index: every
    returned connection carries a boolean [isDefault], true only for the
    connection at the default index. *)
Theorem at_most_one_default_is_returned (l : list ConnectionConfig) :
  (∀ c', c' ∈ modifiedConnections (handleConnectionsPreSave getDefaultIndex l) →
         ∃ i c, l !! i = Some c ∧ id c' = id c ∧ name c' = name c ∧
                isDefault c' = Some (is_index i (getDefaultIndex l))) ∧
  (length (List.filter ConnectionManager.is_default
             (modifiedConnections (handleConnectionsPreSave getDefaultIndex l))) ≤ 1)%nat ∧
  (getDefaultIndex l = None →
   List.filter ConnectionManager.is_default
     (modifiedConnections (handleConnectionsPreSave getDefaultIndex l)) = []).
Proof.
  unfold handleConnectionsPreSave. rewrite preSave_loop_modified. simpl.
  split; [ | split ].
  - intros c' Hin. destruct (returned_from_elem _ _ _ _ Hin) as (i & c & Hl & Hk).
    destruct (kept_fields _ _ _ _ Hk) as (Hd & Hid & Hn).
    exists i, c. repeat split; assumption.
  - apply returned_from_one_default.
  - intros Hnone. apply returned_from_no_default. rewrite Hnone. discriminate.
Qed.

(** X25.  The connections returned are in the order of the list given,
    each input connection giving at most one of them: the ids returned are
    a sublist of the ids given. *)
Theorem returned_in_input_order (l : list ConnectionConfig) :
  List.map id (modifiedConnections (handleConnectionsPreSave getDefaultIndex l))
    `sublist_of` List.map id l.
Proof.
  unfold handleConnectionsPreSave. rewrite preSave_loop_modified. simpl.
  apply returned_from_ids.
Qed.

(** X26.  The input objects are not scrubbed: after the save each of them
    is what it was, password included, except for [isDefault] and
    [useKeychainPassword]; only the returned copies lose the password. *)
Theorem inputs_keep_their_passwords (l : list ConnectionConfig) :
  Forall2 same_but_flags l (mutated (handleConnectionsPreSave getDefaultIndex l)) ∧
  List.map password (mutated (handleConnectionsPreSave getDefaultIndex l))
  = List.map password l.
Proof.
  unfold handleConnectionsPreSave.
  destruct (preSave_loop_mutated (getDefaultIndex l) l 0
              {| modifiedConnections := []; mutated := []; keytar := [] |})
    as (l' & -> & Hall).
  simpl. split; [ exact Hall | ].
  induction Hall as [| c c' rest rest' Hs _ IH]; [ reflexivity | ].
  simpl. rewrite IH. f_equal. apply Hs.
Qed.

End WithDefaultIndexOnceMore.

Lemma at_most_one_default_is_returned_witness :
  List.filter ConnectionManager.is_default
    (modifiedConnections (handleConnectionsPreSave (λ _, None) sample_list)) = [].
Proof.
  destruct (at_most_one_default_is_returned (λ _, None) sample_list) as (_ & _ & H).
  apply H. reflexivity.
Defined.

(** ** The command *)

Lemma editConnectionsCommand_current (item : option ConnectionItem) (s : Panels) :
  alive s = current_panel s →
  alive (editConnectionsCommand item s) = current_panel (editConnectionsCommand item s).
Proof.
  intros Halive. unfold editConnectionsCommand, current_panel in *.
  destruct (panel s) as [k |] eqn:Hp; simpl; rewrite ?Hp; simpl;
    [ exact Halive | rewrite Halive; reflexivity ].
Qed.

Lemma dispose_panel_current (k : nat) (s : Panels) :
  alive s = current_panel s →
  alive (dispose_panel k s) = current_panel (dispose_panel k s).
Proof.
  unfold dispose_panel, current_panel. intros Halive.
  case_bool_decide as Hin; [ | exact Halive ].
  simpl. rewrite Halive in *. destruct (panel s) as [j |]; [ | reflexivity ].
  apply list_elem_of_singleton in Hin as ->. simpl. rewrite Nat.eqb_refl. reflexivity.
Qed.

(** X27.  Whatever the sequence of commands and panel disposals, at most
    one connection editor panel is alive, and it is the one the module
    variable refers to; a command constructs a panel only when there is
    none, and reveals the panel that is alive after it under the id of the
    item it was invoked on. *)
Theorem one_editor_panel (events : list PanelEvent) (item : option ConnectionItem) :
  alive (panel_run events no_panels) = current_panel (panel_run events no_panels) ∧
  (length (alive (panel_run events no_panels)) ≤ 1)%nat ∧
  ∃ k, panel (editConnectionsCommand item (panel_run events no_panels)) = Some k ∧
       reveals (editConnectionsCommand item (panel_run events no_panels))
       = reveals (panel_run events no_panels) ++ [ (k, optional_id item) ] ∧
       constructed (editConnectionsCommand item (panel_run events no_panels))
       = match panel (panel_run events no_panels) with
         | Some _ => constructed (panel_run events no_panels)
         | None => S (constructed (panel_run events no_panels))
         end ∧
       (∀ j, panel (panel_run events no_panels) = Some j → k = j).
Proof.
  assert (Hinv : ∀ s, alive s = current_panel s →
                      alive (panel_run events s) = current_panel (panel_run events s)).
  { induction events as [| e events IH]; intros s Hs; [ exact Hs | ].
    simpl. apply IH. destruct e as [it | k]; simpl.
    - apply editConnectionsCommand_current, Hs.
    - apply dispose_panel_current, Hs. }
  specialize (Hinv no_panels eq_refl).
  split; [ exact Hinv | ]. split.
  - rewrite Hinv. unfold current_panel.
    destruct (panel (panel_run events no_panels)); simpl; lia.
  - unfold editConnectionsCommand.
    destruct (panel (panel_run events no_panels)) as [j |] eqn:Hp; simpl;
      rewrite ?Hp; simpl.
    + exists j. do 3 (split; [ reflexivity | ]). intros j' [= <-]. reflexivity.
    + eexists. do 3 (split; [ reflexivity | ]). intros j' Hj. discriminate.
Qed.

Lemma one_editor_panel_witness :
  panel (editConnectionsCommand None
           (panel_run [Command None; Disposed 0; Command None] no_panels)) = Some 1%nat.
Proof.
  destruct (one_editor_panel [Command None; Disposed 0; Command None] None)
    as (_ & _ & k & Hk & _ & _ & Hj).
  rewrite Hk. f_equal. apply Hj. reflexivity.
Defined.

End EditConnectionsMore.
